(** * Kai: a shallow embedding of [main.py] and [database.py]

    The development follows the two source files: the text helpers the
    handlers rely on, the SQLite store of [database.py], the in-memory rate
    limiter installed by [main.py], the five request handlers, and then the
    properties of the specification. *)

From Stdlib Require Import ZArith Ascii String List Lia Bool Permutation Sorted.
From stdpp Require Import base option gmap strings list sorting.

Local Open Scope Z_scope.

(** ** Text

    A Python [str] is modelled as a [string]: a sequence of characters with
    code points below 256, [len] being the number of characters. *)

Module Text.

(** [str.isspace] on one character, restricted to code points below 256:
    U+0009..U+000D, U+001C..U+0020, U+0085 and U+00A0. *)
Definition isspace (c : ascii) : bool :=
  let n := Z.of_N (N_of_ascii c) in
  ((9 <=? n) && (n <=? 13)) || ((28 <=? n) && (n <=? 32))
  || (n =? 133) || (n =? 160).

Fixpoint lstrip (s : string) : string :=
  match s with
  | EmptyString => EmptyString
  | String c s' => if isspace c then lstrip s' else s
  end.

Fixpoint rstrip (s : string) : string :=
  match s with
  | EmptyString => EmptyString
  | String c s' =>
      match rstrip s' with
      | EmptyString => if isspace c then EmptyString else String c EmptyString
      | r => String c r
      end
  end.

(** [str.strip()] with no argument. *)
Definition strip (s : string) : string := rstrip (lstrip s).

(** [len(s)]. *)
Definition len (s : string) : Z := Z.of_nat (String.length s).

(** Truthiness of a [str]: [not s] holds exactly for the empty string. *)
Definition truthy (s : string) : bool :=
  match s with EmptyString => false | String _ _ => true end.

(** [s[:n]] for a non-negative [n]. *)
Fixpoint prefix (n : nat) (s : string) : string :=
  match n, s with
  | S n', String c s' => String c (prefix n' s')
  | _, _ => EmptyString
  end.

Definition first_char (s : string) : option ascii :=
  match s with EmptyString => None | String c _ => Some c end.

Fixpoint last_char (s : string) : option ascii :=
  match s with
  | EmptyString => None
  | String c EmptyString => Some c
  | String _ s' => last_char s'
  end.

Fixpoint all_chars (p : ascii -> bool) (s : string) : bool :=
  match s with
  | EmptyString => true
  | String c s' => p c && all_chars p s'
  end.

(** [s.encode()]: UTF-8, which for code points below 256 is one byte
    below 128 and two bytes from 128 on. *)
Fixpoint encode (s : string) : list Z :=
  match s with
  | EmptyString => []
  | String c s' =>
      let n := Z.of_N (N_of_ascii c) in
      if n <? 128 then n :: encode s'
      else Z.lor 192 (Z.shiftr n 6) :: Z.lor 128 (Z.land n 63) :: encode s'
  end.

End Text.

(** ** SHA-256

    [hashlib.sha256(data).hexdigest()], after FIPS 180-4. Words are 32-bit
    values carried in [Z], every addition reduced by [w32]. *)

Module Sha256.

Definition w32 (x : Z) : Z := Z.land x 0xFFFFFFFF.
Definition add32 (x y : Z) : Z := w32 (x + y).
Definition shr (n x : Z) : Z := Z.shiftr x n.
Definition rotr (n x : Z) : Z :=
  Z.lor (Z.shiftr x n) (w32 (Z.shiftl x (32 - n))).
Definition lnot32 (x : Z) : Z := Z.lxor x 0xFFFFFFFF.

Definition Ch (x y z : Z) : Z := Z.lxor (Z.land x y) (Z.land (lnot32 x) z).
Definition Maj (x y z : Z) : Z :=
  Z.lxor (Z.lxor (Z.land x y) (Z.land x z)) (Z.land y z).
Definition Sum0 (x : Z) : Z := Z.lxor (Z.lxor (rotr 2 x) (rotr 13 x)) (rotr 22 x).
Definition Sum1 (x : Z) : Z := Z.lxor (Z.lxor (rotr 6 x) (rotr 11 x)) (rotr 25 x).
Definition sig0 (x : Z) : Z := Z.lxor (Z.lxor (rotr 7 x) (rotr 18 x)) (shr 3 x).
Definition sig1 (x : Z) : Z := Z.lxor (Z.lxor (rotr 17 x) (rotr 19 x)) (shr 10 x).

(** The round constants: the first 32 bits of the fractional parts of the
    cube roots of the first 64 primes. *)
Definition K : list Z :=
  [ 0x428A2F98; 0x71374491; 0xB5C0FBCF; 0xE9B5DBA5;
    0x3956C25B; 0x59F111F1; 0x923F82A4; 0xAB1C5ED5;
    0xD807AA98; 0x12835B01; 0x243185BE; 0x550C7DC3;
    0x72BE5D74; 0x80DEB1FE; 0x9BDC06A7; 0xC19BF174;
    0xE49B69C1; 0xEFBE4786; 0x0FC19DC6; 0x240CA1CC;
    0x2DE92C6F; 0x4A7484AA; 0x5CB0A9DC; 0x76F988DA;
    0x983E5152; 0xA831C66D; 0xB00327C8; 0xBF597FC7;
    0xC6E00BF3; 0xD5A79147; 0x06CA6351; 0x14292967;
    0x27B70A85; 0x2E1B2138; 0x4D2C6DFC; 0x53380D13;
    0x650A7354; 0x766A0ABB; 0x81C2C92E; 0x92722C85;
    0xA2BFE8A1; 0xA81A664B; 0xC24B8B70; 0xC76C51A3;
    0xD192E819; 0xD6990624; 0xF40E3585; 0x106AA070;
    0x19A4C116; 0x1E376C08; 0x2748774C; 0x34B0BCB5;
    0x391C0CB3; 0x4ED8AA4A; 0x5B9CCA4F; 0x682E6FF3;
    0x748F82EE; 0x78A5636F; 0x84C87814; 0x8CC70208;
    0x90BEFFFA; 0xA4506CEB; 0xBEF9A3F7; 0xC67178F2 ].

(** The eight working words. *)
Record words8 : Type := W8 { wa : Z; wb : Z; wc : Z; wd : Z;
                             we : Z; wf : Z; wg : Z; wh : Z }.

(** The initial hash value: the first 32 bits of the fractional parts of
    the square roots of the first 8 primes. *)
Definition H0 : words8 :=
  W8 0x6A09E667 0xBB67AE85 0x3C6EF372 0xA54FF53A
     0x510E527F 0x9B05688C 0x1F83D9AB 0x5BE0CD19.

(** Padding: a [1] bit, zero bits up to 56 modulo 64 bytes, then the
    message length in bits as a 64-bit big-endian number. *)
Definition be_bytes (n : nat) (x : Z) : list Z :=
  map (fun i => Z.land (Z.shiftr x (8 * Z.of_nat i)) 255) (rev (seq 0 n)).

Definition pad (msg : list Z) : list Z :=
  let l := Z.of_nat (length msg) in
  msg ++ [128] ++ repeat 0 (Z.to_nat ((55 - l) mod 64)) ++ be_bytes 8 (8 * l).

Definition be_word (bs : list Z) : Z :=
  fold_left (fun acc b => Z.lor (Z.shiftl acc 8) b) bs 0.

(** Cut a list into consecutive pieces of [n] elements. *)
Fixpoint chunks {A} (fuel n : nat) (l : list A) : list (list A) :=
  match fuel, l with
  | O, _ | _, [] => []
  | S fuel', _ => take n l :: chunks fuel' n (drop n l)
  end.

Definition blocks (bytes : list Z) : list (list Z) :=
  let ws := map be_word (chunks (length bytes) 4 bytes) in
  chunks (length ws) 16 ws.

(** The message schedule: sixteen block words extended to sixty-four. *)
Fixpoint extend (n : nat) (w : list Z) : list Z :=
  match n with
  | O => w
  | S n' =>
      let t := length w in
      let at_ k := nth (t - k) w 0 in
      extend n' (w ++ [add32 (add32 (add32 (sig1 (at_ 2%nat)) (at_ 7%nat))
                                    (sig0 (at_ 15%nat))) (at_ 16%nat)])
  end.

Definition round (s : words8) (kw : Z * Z) : words8 :=
  let '(W8 a b c d e f g h) := s in
  let t1 := add32 (add32 (add32 (add32 h (Sum1 e)) (Ch e f g)) kw.1) kw.2 in
  let t2 := add32 (Sum0 a) (Maj a b c) in
  W8 (add32 t1 t2) a b c (add32 d t1) e f g.

Definition compress (H : words8) (block : list Z) : words8 :=
  let '(W8 a b c d e f g h) := fold_left round (combine K (extend 48 block)) H in
  W8 (add32 (wa H) a) (add32 (wb H) b) (add32 (wc H) c) (add32 (wd H) d)
     (add32 (we H) e) (add32 (wf H) f) (add32 (wg H) g) (add32 (wh H) h).

Definition sha256 (msg : list Z) : words8 := fold_left compress (blocks (pad msg)) H0.

Definition hexchars : list ascii :=
  ["0"; "1"; "2"; "3"; "4"; "5"; "6"; "7"; "8"; "9"; "a"; "b"; "c"; "d"; "e"; "f"]%char.

Definition hexdigit (n : Z) : ascii := nth (Z.to_nat n) hexchars "0"%char.

(** One word as eight lowercase hexadecimal digits, followed by [rest]. *)
Definition hex_word (w : Z) (rest : string) : string :=
  fold_right (fun sh acc => String (hexdigit (Z.land (Z.shiftr w sh) 15)) acc)
             rest [28; 24; 20; 16; 12; 8; 4; 0].

Definition hexdigest (H : words8) : string :=
  let '(W8 a b c d e f g h) := H in
  hex_word a (hex_word b (hex_word c (hex_word d
    (hex_word e (hex_word f (hex_word g (hex_word h EmptyString))))))).

Definition is_hex (c : ascii) : bool := existsb (Ascii.eqb c) hexchars.

End Sha256.

(** ** The store ([database.py])

    The SQLite file holds two tables. A table is the list of its rows in
    rowid order, together with the largest rowid handed out so far (the
    [sqlite_sequence] entry of an [AUTOINCREMENT] key). *)

Module Database.

(** A row of [thoughts]. [created_at] is [CURRENT_TIMESTAMP], a UTC
    time with a resolution of one second, kept as seconds since the
    epoch: that order is the order of the stored text. *)
Record Thought : Type := mkThought {
  thought_id : Z;
  thought_content : string;
  thought_created_at : Z
}.

(** A row of [questions]; [answer] and [ip_hash] are nullable columns. *)
Record Question : Type := mkQuestion {
  question_id : Z;
  question_text : string;
  question_answer : option string;
  question_ip_hash : option string;
  question_created_at : Z
}.

Record Db : Type := mkDb {
  thoughts : list Thought;
  thoughts_seq : Z;
  questions : list Question;
  questions_seq : Z
}.

(** Two empty tables. *)
Definition empty_db : Db := mkDb [] 0 [] 0.

(** [init_db]: [CREATE TABLE IF NOT EXISTS] for both tables, on a file that
    may not exist yet ([None]); tables that exist are left as they are. *)
Definition init_db (file : option Db) : Db := default empty_db file.

(** The clock counts milliseconds; [CURRENT_TIMESTAMP] keeps whole
    seconds. *)
Definition current_timestamp (now : Z) : Z := now / 1000.

(** [ORDER BY created_at DESC] over a scan in rowid order. Rows with equal
    [created_at] keep their scan order, as SQLite's sorter leaves them. *)
Fixpoint insert_desc (t : Thought) (sorted : list Thought) : list Thought :=
  match sorted with
  | [] => [t]
  | u :: rest =>
      if thought_created_at t <? thought_created_at u
      then u :: insert_desc t rest
      else t :: sorted
  end.

Definition order_by_created_at_desc (rows : list Thought) : list Thought :=
  foldr insert_desc [] rows.

(** A Python [int] bound to a [?] parameter becomes an SQLite INTEGER, a
    signed integer of 64 bits. *)
Definition fits_int64 (n : Z) : bool := (- 2 ^ 63 <=? n) && (n <=? 2 ^ 63 - 1).

(** [LIMIT ?] with [n] bound to the parameter: the first [n] rows; a negative
    [n] means no limit. For an [n] that does not fit an SQLite INTEGER the
    statement is never run: [sqlite3] raises [OverflowError] when it binds
    the parameter ([None]). *)
Definition sql_limit {A} (n : Z) (rows : list A) : option (list A) :=
  if fits_int64 n
  then Some (if n <? 0 then rows else take (Z.to_nat n) rows)
  else None.

(** [SELECT id, content, created_at FROM thoughts
    ORDER BY created_at DESC LIMIT ?], with [limit] the value bound to the
    parameter; [None] when binding it raises [OverflowError]. *)
Definition get_thoughts (limit : Z) (db : Db) : option (list Thought) :=
  sql_limit limit (order_by_created_at_desc (thoughts db)).

(** [INSERT INTO thoughts (content) VALUES (?)], returning
    [cursor.lastrowid]. *)
Definition add_thought (content : string) (now : Z) (db : Db) : Z * Db :=
  let rowid := thoughts_seq db + 1 in
  (rowid,
   mkDb (thoughts db ++ [mkThought rowid content (current_timestamp now)])
        rowid (questions db) (questions_seq db)).

Definition new_question (question answer ip_hash : string) (now : Z) (db : Db)
  : Question :=
  mkQuestion (questions_seq db + 1) question (Some answer) (Some ip_hash)
             (current_timestamp now).

(** [INSERT INTO questions (question, answer, ip_hash) VALUES (?, ?, ?)] *)
Definition log_question (question answer ip_hash : string) (now : Z) (db : Db)
  : Db :=
  let row := new_question question answer ip_hash now db in
  mkDb (thoughts db) (thoughts_seq db) (questions db ++ [row]) (question_id row).

End Database.

(** ** Clock readings as doubles

    [time.time()] returns an IEEE 754 double, and the rate limiter's storage
    adds and compares such doubles. A finite double is kept here as the
    integer number of units of 2^-1074 seconds it holds (every finite double
    is a whole number of them), so that comparison is the order of [Z];
    results are rounded to the nearest double, ties to the even
    significand, as the hardware does. *)

Module Double.

(** One second, and the first magnitude that is no longer finite. *)
Definition one : Z := 2 ^ 1074.
Definition infinity : Z := 2 ^ 2098.

(** The finite doubles that are not negative: a significand of at most 53
    bits at some exponent. *)
Definition representable (r : Z) : Prop :=
  exists m e, 0 <= e /\ 0 <= m < 2 ^ 53 /\ r = m * 2 ^ e /\ r < infinity.

(** Every multiple of 2^-11 seconds below 2^42 seconds is a double; clock
    readings are compared on this grid. *)
Definition grid : Z := 2 ^ 1063.

(** [p / q] to the nearest integer, ties to even, for [0 < q]. *)
Definition rne (p q : Z) : Z :=
  let d := p / q in
  let r := p mod q in
  if 2 * r <? q then d
  else if q <? 2 * r then d + 1
  else if Z.even d then d else d + 1.

(** The double nearest to [p / q] units, for [0 <= p]: a significand of
    53 bits at the exponent of [p / q]. *)
Definition round_pos (p q : Z) : Z :=
  let e := Z.max 0 (Z.log2 (p / q) - 52) in
  let y := rne p (q * 2 ^ e) * 2 ^ e in
  if infinity <=? y then infinity else y.

Definition round (p q : Z) : Z :=
  if p <? 0 then - round_pos (- p) q else round_pos p q.

(** The reading of a clock that stands at [t] milliseconds. *)
Definition of_ms (t : Z) : Z := round (t * one) 1000.

(** [x + y] on doubles. *)
Definition add (x y : Z) : Z := round (x + y) 1.

End Double.

(** ** The rate limiter

    [Limiter(key_func=get_remote_address)] is given no strategy and no
    storage, so it counts with the fixed-window strategy over the in-memory
    storage: a counter and an expiry time for each key. The first hit of a
    key opens a window that closes [expiry] later; a hit is allowed while the
    counter, the hit included, does not exceed the amount. *)

Module Limiter.

(** The counter of each key and the time its window closes, a double as
    [time.time() + expiry] leaves it. *)
Record MemoryStorage : Type := mkStorage {
  storage : gmap string Z;
  expirations : gmap string Z
}.

Definition empty : MemoryStorage := mkStorage ∅ ∅.

(** [MemoryStorage.get]: drop the key when its window has closed,
    [self.expirations.get(key, 0) <= time.time()]. *)
Definition expire (key : string) (now : Z) (m : MemoryStorage) : MemoryStorage :=
  if default 0 (expirations m !! key) <=? Double.of_ms now
  then mkStorage (delete key (storage m)) (delete key (expirations m))
  else m.

(** [MemoryStorage.incr] with an amount of one; the first hit of a window
    sets [self.expirations[key] = time.time() + expiry]. The window length
    is given in milliseconds like the clock: a whole number of seconds is a
    double without rounding. *)
Definition incr (key : string) (expiry now : Z) (m : MemoryStorage)
  : Z * MemoryStorage :=
  let m1 := expire key now m in
  let count := default 0 (storage m1 !! key) + 1 in
  (count,
   mkStorage (<[key := count]> (storage m1))
             (if count =? 1
              then <[key := Double.add (Double.of_ms now) (Double.of_ms expiry)]>
                     (expirations m1)
              else expirations m1)).

(** [FixedWindowRateLimiter.hit]. *)
Definition hit (amount expiry : Z) (key : string) (now : Z) (m : MemoryStorage)
  : bool * MemoryStorage :=
  let '(count, m') := incr key expiry now m in
  (count <=? amount, m').

End Limiter.

(** ** The application ([main.py]) *)

Module App.
Import Database.

(** *** Requests, responses and the outside world *)

Inductive Route : Type :=
| GET_home
| GET_api_thoughts (limit : Z)
| POST_api_thoughts (content : string)
| POST_api_ask (question : string)
| GET_health.

(** A request as the handlers see it, after the framework has parsed the
    parameters the route declares (requests it cannot parse never reach a
    handler): the route with its parameters, the [Authorization] header if
    there is one, and the host of the connected client if the server knows
    it. *)
Record Request : Type := mkRequest {
  route : Route;
  authorization : option string;
  client_host : option string
}.

(** What the generation API returns for a call. *)
Inductive ContentBlock : Type :=
| TextBlock (text : string)
| OtherBlock.

Inductive Upstream : Type :=
| Message (content : list ContentBlock)
| ProviderRateLimited
| ProviderFailed.

(** What a request finds outside the process: the clock (milliseconds; one
    reading serves the limiter, which sees it as the double [time.time()]
    returns, and [CURRENT_TIMESTAMP]), the environment
    variable [ANTHROPIC_API_KEY], the provider's reaction to a question, and
    whether the storage file can be used. *)
Record Env : Type := mkEnv {
  now : Z;
  anthropic_api_key : option string;
  provider : string -> Upstream;
  storage_up : bool
}.

Inductive Body : Type :=
| Detail (msg : string)
| Error (msg : string)
| Answer (answer : string)
| ThoughtList (rows : list Thought)
| Created (rowid : Z)
| Alive (ts : Z)
| Page (rows : list Thought) (ts : Z)
| InternalServerError.

Record Response : Type := mkResponse { status_code : Z; body : Body }.

Inductive Exception : Type :=
| HTTPException (status : Z) (detail : string)
| RateLimitExceeded
| RateLimitError
| OtherException.

(** What a request does outside the handler's own variables. *)
Inductive Event : Type :=
| MessagesCreate (api_key question : string)
| InsertQuestion (row : Question)
| InsertThought (row : Thought).

(** The process state: the store, the limiter's counters and the log of
    events so far. *)
Record World : Type := mkWorld {
  db : Db;
  limiter : Limiter.MemoryStorage;
  trace : list Event
}.

(** The process after start-up ([lifespan] has run [init_db]) on a new
    installation. *)
Definition initial : World := mkWorld (init_db None) Limiter.empty [].

(** *** Handlers as computations: state and exceptions *)

Inductive Outcome (A : Type) : Type :=
| Return (a : A)
| Raise (e : Exception).
Arguments Return {A} a.
Arguments Raise {A} e.

Definition M (A : Type) : Type := World -> Outcome A * World.

Definition ret {A} (a : A) : M A := fun w => (Return a, w).
Definition raise {A} (e : Exception) : M A := fun w => (Raise e, w).
Definition bind {A B} (m : M A) (k : A -> M B) : M B :=
  fun w => match m w with
           | (Return a, w') => k a w'
           | (Raise e, w') => (Raise e, w')
           end.
Definition try_except {A} (m : M A) (handler : Exception -> M A) : M A :=
  fun w => match m w with
           | (Return a, w') => (Return a, w')
           | (Raise e, w') => handler e w'
           end.
Definition emit (ev : Event) : M unit :=
  fun w => (Return tt, mkWorld (db w) (limiter w) (trace w ++ [ev])).

Declare Scope handler_scope.
Delimit Scope handler_scope with handler.
Notation "x <- m ;; k" := (bind m (fun x => k))
  (at level 100, m at next level, right associativity) : handler_scope.
Notation "m ;; k" := (bind m (fun _ => k))
  (at level 100, right associativity) : handler_scope.
Local Open Scope handler_scope.

(** *** Configuration *)

(** [ADMIN_KEY = os.environ.get("ADMIN_KEY", "")], read once at import. *)
Record Config : Type := mkConfig { ADMIN_KEY : string }.

Section Handlers.
Variable cfg : Config.
Variable env : Env.

(** **** Storage calls: each one fails as a whole when the file cannot
    be used, and the listing also when its limit cannot be bound. *)

Definition storage_get_thoughts (limit : Z) : M (list Thought) :=
  fun w => if storage_up env
           then match get_thoughts limit (db w) with
                | Some rows => (Return rows, w)
                | None => (Raise OtherException, w)
                end
           else (Raise OtherException, w).

Definition storage_add_thought (content : string) : M Z :=
  fun w => if storage_up env
           then let '(rowid, db') := add_thought content (now env) (db w) in
                (Return rowid,
                 mkWorld db' (limiter w)
                         (trace w ++ [InsertThought
                            (mkThought rowid content (current_timestamp (now env)))]))
           else (Raise OtherException, w).

Definition storage_log_question (question answer ip_hash : string) : M unit :=
  fun w => if storage_up env
           then (Return tt,
                 mkWorld (log_question question answer ip_hash (now env) (db w))
                         (limiter w)
                         (trace w ++ [InsertQuestion
                            (new_question question answer ip_hash (now env) (db w))]))
           else (Raise OtherException, w).

(** **** Rate limiting *)

(** [slowapi.util.get_remote_address]. *)
Definition get_remote_address (request : Request) : string :=
  match client_host request with
  | Some host => if Text.truthy host then host else "127.0.0.1"
  | None => "127.0.0.1"
  end.

(** [@limiter.limit("3/minute")]: count the request against the window of
    its address before the handler runs. *)
Definition limit (amount expiry : Z) (request : Request) (handler : M Response)
  : M Response :=
  allowed <- (fun w =>
                let '(ok, m) := Limiter.hit amount expiry
                                  (get_remote_address request) (now env) (limiter w) in
                (Return ok, mkWorld (db w) m (trace w))) ;;
  if allowed : bool then handler else raise RateLimitExceeded.

Definition rate_limit_handler : Response :=
  mkResponse 429
    (Error "Too many questions. I need time to think. Try again in a minute.").

(** **** Admin authorization *)

Definition verify_admin (request : Request) : M unit :=
  let auth := default "" (authorization request) in
  if negb (Text.truthy (ADMIN_KEY cfg))
     || negb (String.eqb auth ("Bearer " +:+ ADMIN_KEY cfg))
  then raise (HTTPException 401 "Unauthorized")
  else ret tt.

(** **** Endpoints *)

Definition home (request : Request) : M Response :=
  rows <- storage_get_thoughts 20 ;;
  ret (mkResponse 200 (Page rows (now env))).

Definition api_get_thoughts (limit : Z) : M Response :=
  rows <- storage_get_thoughts (Z.min limit 100) ;;
  ret (mkResponse 200 (ThoughtList rows)).

Definition api_add_thought (request : Request) (content : string) : M Response :=
  verify_admin request ;;
  if negb (Text.truthy (Text.strip content))
  then raise (HTTPException 400 "Empty thought")
  else
    thought_id <- storage_add_thought (Text.strip content) ;;
    ret (mkResponse 200 (Created thought_id)).

(** [client.messages.create(...)] followed by [message.content[0].text]. The
    model name, the token limit and the persona are the same in every call
    and are left out of the event. *)
Definition messages_create (api_key question : string) : M string :=
  emit (MessagesCreate api_key question) ;;
  match provider env question with
  | Message (TextBlock text :: _) => ret text
  | Message _ => raise OtherException
  | ProviderRateLimited => raise RateLimitError
  | ProviderFailed => raise OtherException
  end.

Definition ip_hash_of (address : string) : string :=
  Text.prefix 16 (Sha256.hexdigest (Sha256.sha256 (Text.encode address))).

Definition api_ask_body (request : Request) (question : string) : M Response :=
  let question := Text.strip question in
  if negb (Text.truthy question)
  then raise (HTTPException 400 "Empty question")
  else if 500 <? Text.len question
  then raise (HTTPException 400 "Question too long (max 500 chars)")
  else
    match anthropic_api_key env with
    | None => raise (HTTPException 503 "I'm not connected right now. Check back later.")
    | Some api_key =>
        if negb (Text.truthy api_key)
        then raise (HTTPException 503 "I'm not connected right now. Check back later.")
        else
          try_except
            (answer <- messages_create api_key question ;;
             let ip_hash := ip_hash_of (get_remote_address request) in
             storage_log_question question answer ip_hash ;;
             ret (mkResponse 200 (Answer answer)))
            (fun e =>
               match e with
               | RateLimitError =>
                   raise (HTTPException 429 "I'm a bit overwhelmed. Try again in a moment.")
               | _ =>
                   raise (HTTPException 500 "Something went wrong in my thinking.")
               end)
    end.

Definition api_ask (request : Request) (question : string) : M Response :=
  limit 3 60000 request (api_ask_body request question).

Definition health : M Response :=
  ret (mkResponse 200 (Alive (now env))).

(** **** Dispatch and the translation of exceptions *)

Definition dispatch (request : Request) : M Response :=
  match route request with
  | GET_home => home request
  | GET_api_thoughts limit => api_get_thoughts limit
  | POST_api_thoughts content => api_add_thought request content
  | POST_api_ask question => api_ask request question
  | GET_health => health
  end.

Definition response_of (o : Outcome Response) : Response :=
  match o with
  | Return r => r
  | Raise (HTTPException status detail) => mkResponse status (Detail detail)
  | Raise RateLimitExceeded => rate_limit_handler
  | Raise _ => mkResponse 500 InternalServerError
  end.

(** One request, from arrival to response. *)
Definition serve (request : Request) (w : World) : Response * World :=
  let '(o, w') := dispatch request w in (response_of o, w').

End Handlers.

(** A run of the server: requests one after the other, each with the
    outside world it meets. *)
Fixpoint run (cfg : Config) (reqs : list (Env * Request)) (w : World)
  : list Response * World :=
  match reqs with
  | [] => ([], w)
  | (env, request) :: rest =>
      let '(r, w') := serve cfg env request w in
      let '(rs, w'') := run cfg rest w' in
      (r :: rs, w'')
  end.

End App.

(** ** Vocabulary of the specification *)

Module Spec.
Import Database App.

(** A text that is not empty and neither begins nor ends with white
    space. *)
Definition trimmed (s : string) : bool :=
  match Text.first_char s, Text.last_char s with
  | Some a, Some b => negb (Text.isspace a) && negb (Text.isspace b)
  | _, _ => false
  end.

(** The request presents the bearer form of a configured secret. *)
Definition valid_credential (cfg : Config) (request : Request) : Prop :=
  ADMIN_KEY cfg <> EmptyString /\
  authorization request = Some ("Bearer " +:+ ADMIN_KEY cfg).

(** A question that passes validation: not empty after trimming and at
    most 500 characters long. *)
Definition valid_question (question : string) : Prop :=
  Text.strip question <> EmptyString /\ Text.len (Text.strip question) <= 500.

(** No generation credential: the variable is unset or empty. *)
Definition no_credential (env : Env) : Prop :=
  anthropic_api_key env = None \/ anthropic_api_key env = Some EmptyString.

(** The request is a question from [address]. *)
Definition asks_from (address : string) (request : Request) : Prop :=
  (exists question, route request = POST_api_ask question) /\
  get_remote_address request = address.

(** None of the requests is a question from [address]. *)
Definition others (address : string) (reqs : list (Env * Request)) : Prop :=
  Forall (fun er => ~ asks_from address er.2) reqs.

(** The clock readings the statements about windows cover: from the epoch
    to 2^50 milliseconds after it. *)
Definition clock (t : Z) : Prop := 0 <= t < 2 ^ 50.

(** Every question [address] asked in [reqs] arrived, at a clock not before
    the epoch, more than a minute before [t]: 60.001 seconds or more, on a
    clock of milliseconds. *)
Definition quiet (address : string) (t : Z) (reqs : list (Env * Request)) : Prop :=
  Forall (fun er => asks_from address er.2 -> 0 <= now er.1 /\ now er.1 + 60000 < t)
         reqs.

(** Every question [address] asks in [reqs] arrives less than a minute
    after [t]: 59.999 seconds or less. *)
Definition within_minute (address : string) (t : Z) (reqs : list (Env * Request))
  : Prop :=
  Forall (fun er => asks_from address er.2 -> now er.1 < t + 60000) reqs.

(** Newest first: no row is older than a row after it. *)
Definition newer_or_equal (a b : Thought) : Prop :=
  thought_created_at b <= thought_created_at a.

Definition newest_first (rows : list Thought) : Prop :=
  StronglySorted newer_or_equal rows.

(** A text of exactly sixteen lowercase hexadecimal digits. *)
Definition hex16 (s : string) : bool :=
  (String.length s =? 16)%nat && Text.all_chars Sha256.is_hex s.

(** The ways the body of [api_ask] can end, with the world it leaves. *)
Definition called (api_key question : string) (w : World) : World :=
  mkWorld (db w) (limiter w) (trace w ++ [MessagesCreate api_key (Text.strip question)]).

Definition logged (env : Env) (request : Request) (api_key question answer : string)
    (w : World) : World :=
  let ip_hash := ip_hash_of (get_remote_address request) in
  mkWorld (log_question (Text.strip question) answer ip_hash (now env) (db w))
          (limiter w)
          (trace w ++ [MessagesCreate api_key (Text.strip question);
                       InsertQuestion (new_question (Text.strip question) answer
                                         ip_hash (now env) (db w))]).

Inductive ask_result (env : Env) (request : Request) (question : string) (w : World)
  : Outcome Response * World -> Prop :=
| ask_empty :
    Text.strip question = EmptyString ->
    ask_result env request question w
      (Raise (HTTPException 400 "Empty question"), w)
| ask_too_long :
    Text.strip question <> EmptyString ->
    500 < Text.len (Text.strip question) ->
    ask_result env request question w
      (Raise (HTTPException 400 "Question too long (max 500 chars)"), w)
| ask_not_connected :
    valid_question question ->
    no_credential env ->
    ask_result env request question w
      (Raise (HTTPException 503 "I'm not connected right now. Check back later."), w)
| ask_overwhelmed api_key :
    valid_question question ->
    anthropic_api_key env = Some api_key -> api_key <> EmptyString ->
    provider env (Text.strip question) = ProviderRateLimited ->
    ask_result env request question w
      (Raise (HTTPException 429 "I'm a bit overwhelmed. Try again in a moment."),
       called api_key question w)
| ask_failed api_key :
    valid_question question ->
    anthropic_api_key env = Some api_key -> api_key <> EmptyString ->
    (forall answer rest,
        provider env (Text.strip question) = Message (TextBlock answer :: rest) ->
        storage_up env = false) ->
    ask_result env request question w
      (Raise (HTTPException 500 "Something went wrong in my thinking."),
       called api_key question w)
| ask_answered api_key answer rest :
    valid_question question ->
    anthropic_api_key env = Some api_key -> api_key <> EmptyString ->
    provider env (Text.strip question) = Message (TextBlock answer :: rest) ->
    storage_up env = true ->
    ask_result env request question w
      (Return (mkResponse 200 (Answer answer)),
       logged env request api_key question answer w).

(** When the clock stands at [t] the limiter holds no open window for
    [address]: either it has no entry, or the entry's window has closed. *)
Definition no_open_window (address : string) (t : Z) (m : Limiter.MemoryStorage)
  : Prop :=
  match Limiter.expirations m !! address with
  | Some closes => closes <= Double.of_ms t
  | None => Limiter.storage m !! address = None
  end.

(** The limiter holds for [address] a window that has counted [count]
    hits and closes at the double [closes]. *)
Definition window (address : string) (m : Limiter.MemoryStorage)
    (count closes : Z) : Prop :=
  Limiter.storage m !! address = Some count /\
  Limiter.expirations m !! address = Some closes.

(** The rate limiter's answer, as opposed to any answer of the handler. *)
Definition rate_limited (r : Response) : Prop := r = rate_limit_handler.

End Spec.

(** ** Scenarios used to exercise the model *)

Module Scenario.
Import Database App.

Definition cfg : Config := mkConfig "k3y".

(** An outside world at clock [t] with a provider that answers, with or
    without a generation credential. *)
Definition env_at (t : Z) (api_key : option string) : Env :=
  mkEnv t api_key (fun _ => Message [TextBlock "What I wait in."]) true.

Definition post_thought (content : string) : Request :=
  mkRequest (POST_api_thoughts content) (Some "Bearer k3y") (Some "10.0.0.7").

Definition ask (question : string) : Request :=
  mkRequest (POST_api_ask question) None (Some "10.0.0.7").

Definition list_thoughts (limit : Z) : Request :=
  mkRequest (GET_api_thoughts limit) None (Some "10.0.0.7").

(** Two thoughts added 400 ms apart, within one second. *)
Definition two_in_one_second : list (Env * Request) :=
  [ (env_at 5000100 None, post_thought "first");
    (env_at 5000500 None, post_thought "second") ].

(** A hundred and one thoughts, one every second. *)
Definition many_thoughts : list (Env * Request) :=
  map (fun i => (env_at (1000 * Z.of_nat i) None, post_thought "again"))
      (seq 1 101).

(** Three valid questions from one address within a second, no
    generation credential configured. *)
Definition three_questions : list (Env * Request) :=
  [ (env_at 7000000 None, ask "What is time?");
    (env_at 7000300 None, ask "What is time?");
    (env_at 7000600 None, ask "What is time?") ].

(** A question of [n] letters, with white space around it. *)
Definition question_of_length (n : nat) : string :=
  " " +:+ string_of_list_ascii (repeat "q"%char n) +:+ " ".

End Scenario.

(** ** Observations on requests, responses and events *)

Module Observe.
Import Database App.

(** The request is a question. *)
Definition is_ask (request : Request) : bool :=
  match route request with POST_api_ask _ => true | _ => false end.

(** The request is a question from [address]. *)
Definition asks_fromb (address : string) (request : Request) : bool :=
  is_ask request && String.eqb (get_remote_address request) address.

(** The response is the rate limiter's: the only one with an [error]
    payload. *)
Definition is_limited (r : Response) : bool :=
  match body r with Error _ => true | _ => false end.

Definition is_answer (r : Response) : bool :=
  match body r with Answer _ => true | _ => false end.

Definition is_created (r : Response) : bool :=
  match body r with Created _ => true | _ => false end.

(** The questions of [address] among [reqs] that were let through, given
    the responses in the same order. *)
Fixpoint admitted (address : string) (reqs : list (Env * Request))
    (resps : list Response) : nat :=
  match reqs, resps with
  | (_, request) :: reqs', r :: resps' =>
      (if asks_fromb address request && negb (is_limited r) then 1 else 0)%nat
      + admitted address reqs' resps'
  | _, _ => 0%nat
  end.

(** The calls to the generation API recorded in a log of events. *)
Fixpoint api_calls (events : list Event) : list (string * string) :=
  match events with
  | [] => []
  | MessagesCreate api_key question :: rest => (api_key, question) :: api_calls rest
  | _ :: rest => api_calls rest
  end.

(** The request uses one of the GET routes. *)
Definition is_get (request : Request) : bool :=
  match route request with
  | GET_home | GET_api_thoughts _ | GET_health => true
  | POST_api_thoughts _ | POST_api_ask _ => false
  end.

(** Each thought was created in a later second than the one before it. *)
Definition one_per_second (rows : list Thought) : Prop :=
  StronglySorted (fun a b => thought_created_at a < thought_created_at b) rows.

(** A call to the generation API as [api_ask] makes it: a credential that
    is not empty and a trimmed question of 1 to 500 characters. *)
Definition well_formed_call (call : string * string) : Prop :=
  fst call <> EmptyString /\
  Spec.trimmed (snd call) = true /\
  Text.len (snd call) <= 500.

(** How many responses satisfy [p]. *)
Definition count_of (p : Response -> bool) (resps : list Response) : nat :=
  length (List.filter p resps).

(** The process started again on the same storage file: [init_db] finds
    the tables, the limiter is a new object with empty in-memory storage. *)
Definition restart (w : World) : World :=
  mkWorld (init_db (Some (db w))) Limiter.empty (trace w).

(** A stored question row as [api_ask] writes it: a trimmed question of 1
    to 500 characters, an answer, and a hash of sixteen hexadecimal
    digits. *)
Definition well_formed_question (row : Question) : Prop :=
  Spec.trimmed (question_text row) = true /\
  Text.len (question_text row) <= 500 /\
  (exists answer, question_answer row = Some answer) /\
  (exists h, question_ip_hash row = Some h /\ Spec.hex16 h = true).

(** The rowids of a table are 1, 2, ... in row order and the sequence holds
    the last one. *)
Definition sequential (ids : list Z) (last : Z) : Prop :=
  ids = map Z.of_nat (seq 1 (length ids)) /\ last = Z.of_nat (length ids).

End Observe.

(** * Properties *)

Import Database App.

(** ** Text *)

Section TextFacts.
Import Text.

Lemma truthy_true (s : string) : truthy s = true <-> s <> EmptyString.
Proof. destruct s; simpl; split; congruence. Qed.

Lemma truthy_false (s : string) : truthy s = false <-> s = EmptyString.
Proof. destruct s; simpl; split; congruence. Qed.

Lemma lstrip_first (s : string) (c : ascii) :
  first_char (lstrip s) = Some c -> isspace c = false.
Proof.
  induction s as [|a s IH]; simpl; [discriminate|].
  destruct (isspace a) eqn:Ha; [exact IH|].
  simpl. intros [= <-]. exact Ha.
Qed.

Lemma rstrip_first (s : string) (c : ascii) :
  first_char (rstrip s) = Some c -> first_char s = Some c.
Proof.
  destruct s as [|a s]; simpl; [discriminate|].
  destruct (rstrip s); [destruct (isspace a)|]; simpl; congruence.
Qed.

Lemma rstrip_last (s : string) (c : ascii) :
  last_char (rstrip s) = Some c -> isspace c = false.
Proof.
  induction s as [|a s IH]; simpl; [discriminate|].
  destruct (rstrip s) as [|b r] eqn:Hr.
  - destruct (isspace a) eqn:Ha; simpl; [discriminate|].
    intros [= <-]. exact Ha.
  - exact IH.
Qed.

(** A non-empty result of [strip] begins and ends with a character that is
    not white space. *)
Lemma strip_first (s : string) (c : ascii) :
  first_char (strip s) = Some c -> isspace c = false.
Proof. intros H. apply (lstrip_first s), rstrip_first, H. Qed.

Lemma strip_last (s : string) (c : ascii) :
  last_char (strip s) = Some c -> isspace c = false.
Proof. apply rstrip_last. Qed.

Lemma lstrip_fixed (s : string) :
  (forall c, first_char s = Some c -> isspace c = false) -> lstrip s = s.
Proof.
  destruct s as [|a s]; simpl; [reflexivity|].
  intros H. rewrite (H a eq_refl). reflexivity.
Qed.

Lemma rstrip_fixed (s : string) :
  (forall c, last_char s = Some c -> isspace c = false) -> rstrip s = s.
Proof.
  induction s as [|a s IH]; simpl; [reflexivity|].
  intros H. destruct s as [|b s].
  - simpl. rewrite (H a eq_refl). reflexivity.
  - rewrite IH by exact H. reflexivity.
Qed.

(** Trimming a trimmed text changes nothing. *)
Lemma strip_idempotent (s : string) : strip (strip s) = strip s.
Proof.
  unfold strip at 1.
  rewrite (lstrip_fixed (strip s)) by apply strip_first.
  apply rstrip_fixed, strip_last.
Qed.

(** A white-space-only text trims to the empty text, and only such a text
    does. *)
Lemma strip_empty_iff (s : string) :
  strip s = EmptyString <-> all_chars isspace s = true.
Proof.
  unfold strip. induction s as [|a s IH]; simpl; [tauto|].
  destruct (isspace a) eqn:Ha; simpl; [exact IH|].
  split; [|discriminate].
  destruct (rstrip s); [rewrite Ha|]; discriminate.
Qed.

End TextFacts.

(** ** Admin authorization *)

Lemma verify_admin_cases (cfg : Config) (request : Request) (w : World) :
  (Spec.valid_credential cfg request /\
   verify_admin cfg request w = (Return tt, w)) \/
  (~ Spec.valid_credential cfg request /\
   verify_admin cfg request w = (Raise (HTTPException 401 "Unauthorized"), w)).
Proof.
  unfold verify_admin, Spec.valid_credential.
  destruct (Text.truthy (ADMIN_KEY cfg)) eqn:Hkey; simpl.
  - apply truthy_true in Hkey.
    destruct (String.eqb_spec (default "" (authorization request))
                              ("Bearer " +:+ ADMIN_KEY cfg)) as [Heq|Hne]; simpl.
    + left. split; [|reflexivity]. split; [exact Hkey|].
      destruct (authorization request) as [h|]; simpl in Heq.
      * now rewrite Heq.
      * discriminate.
    + right. split; [|reflexivity]. intros [_ Hauth].
      rewrite Hauth in Hne. now apply Hne.
  - apply truthy_false in Hkey. right. split; [|reflexivity].
    intros [Hk _]. now apply Hk.
Qed.

(** C1. The admin guard succeeds exactly when a secret is configured and the
    Authorization header is "Bearer " followed by that secret; in every other
    case, an empty secret included, it raises the 401 error, which reaches
    the client as status 401. *)
Theorem C1_verify_admin (cfg : Config) (request : Request) (w : World) :
  (verify_admin cfg request w = (Return tt, w) <-> Spec.valid_credential cfg request) /\
  (~ Spec.valid_credential cfg request ->
   verify_admin cfg request w = (Raise (HTTPException 401 "Unauthorized"), w)) /\
  (ADMIN_KEY cfg = EmptyString ->
   verify_admin cfg request w = (Raise (HTTPException 401 "Unauthorized"), w)) /\
  status_code (response_of (Raise (HTTPException 401 "Unauthorized"))) = 401.
Proof.
  destruct (verify_admin_cases cfg request w) as [[Hv Hr]|[Hv Hr]].
  - split; [tauto|]. split; [tauto|]. split; [|reflexivity].
    intros Hk. destruct Hv as [Hne _]. contradiction.
  - rewrite Hr. split; [split; [discriminate|tauto]|].
    repeat split; reflexivity.
Qed.

Lemma C1_verify_admin_witness :
  verify_admin (mkConfig "") (mkRequest GET_health (Some "Bearer ") None) initial
  = (Raise (HTTPException 401 "Unauthorized"), initial) /\
  verify_admin (mkConfig "k3y") (mkRequest GET_health (Some "bearer k3y") None) initial
  = (Raise (HTTPException 401 "Unauthorized"), initial).
Proof.
  split.
  - apply (proj1 (proj2 (proj2 (C1_verify_admin (mkConfig "")
             (mkRequest GET_health (Some "Bearer ") None) initial)))).
    reflexivity.
  - apply (proj1 (proj2 (C1_verify_admin (mkConfig "k3y")
             (mkRequest GET_health (Some "bearer k3y") None) initial))).
    unfold Spec.valid_credential; simpl. intros [_ H]. discriminate H.
Defined.

(** ** Adding a thought *)

Lemma api_add_thought_unauthorized (cfg : Config) (env : Env) (request : Request)
    (content : string) (w : World) :
  ~ Spec.valid_credential cfg request ->
  api_add_thought cfg env request content w
  = (Raise (HTTPException 401 "Unauthorized"), w).
Proof.
  intros Hv. unfold api_add_thought, bind.
  destruct (verify_admin_cases cfg request w) as [[Hv' _]|[_ ->]]; tauto.
Qed.

Lemma api_add_thought_authorized (cfg : Config) (env : Env) (request : Request)
    (content : string) (w : World) :
  Spec.valid_credential cfg request ->
  api_add_thought cfg env request content w
  = (if negb (Text.truthy (Text.strip content))
     then raise (HTTPException 400 "Empty thought")
     else bind (storage_add_thought env (Text.strip content))
               (fun thought_id => ret (mkResponse 200 (Created thought_id)))) w.
Proof.
  intros Hv. unfold api_add_thought, bind at 1.
  destruct (verify_admin_cases cfg request w) as [[_ ->]|[Hv' _]]; tauto.
Qed.

(** C6. POST /api/thoughts without a valid admin credential answers 401
    whatever the content is, and with a valid credential and a content that
    is empty or only white space answers 400; in both cases the store, the
    limiter and the event log are left as they were, so no row is inserted. *)
Theorem C6_add_thought_guards (cfg : Config) (env : Env) (content : string)
    (auth host : option string) (w : World) :
  let request := mkRequest (POST_api_thoughts content) auth host in
  (~ Spec.valid_credential cfg request ->
   serve cfg env request w = (mkResponse 401 (Detail "Unauthorized"), w)) /\
  (Spec.valid_credential cfg request ->
   Text.all_chars Text.isspace content = true ->
   serve cfg env request w = (mkResponse 400 (Detail "Empty thought"), w)).
Proof.
  intros request. unfold serve, dispatch. simpl. split.
  - intros Hv. now rewrite api_add_thought_unauthorized.
  - intros Hv Hws. rewrite api_add_thought_authorized by exact Hv.
    apply strip_empty_iff in Hws. rewrite Hws. reflexivity.
Qed.

Lemma C6_add_thought_guards_witness :
  serve (mkConfig "k3y") (mkEnv 0 None (fun _ => ProviderFailed) true)
        (mkRequest (POST_api_thoughts "a thought") (Some "Bearer wrong") None) initial
  = (mkResponse 401 (Detail "Unauthorized"), initial) /\
  serve (mkConfig "k3y") (mkEnv 0 None (fun _ => ProviderFailed) true)
        (mkRequest (POST_api_thoughts "   ") (Some "Bearer k3y") None) initial
  = (mkResponse 400 (Detail "Empty thought"), initial).
Proof.
  split.
  - apply (C6_add_thought_guards (mkConfig "k3y")
             (mkEnv 0 None (fun _ => ProviderFailed) true) "a thought"
             (Some "Bearer wrong") None initial).
    unfold Spec.valid_credential; simpl. intros [_ H]. discriminate H.
  - apply (C6_add_thought_guards (mkConfig "k3y")
             (mkEnv 0 None (fun _ => ProviderFailed) true) "   "
             (Some "Bearer k3y") None initial).
    + unfold Spec.valid_credential; simpl. split; [discriminate|reflexivity].
    + reflexivity.
Defined.

(** ** Listing thoughts *)

Section Listing.

Lemma insert_desc_perm (t : Thought) (l : list Thought) :
  insert_desc t l ≡ₚ t :: l.
Proof.
  induction l as [|u l IH]; simpl; [reflexivity|].
  destruct (thought_created_at t <? thought_created_at u); [|reflexivity].
  rewrite IH. apply Permutation_swap.
Qed.

Lemma order_perm (l : list Thought) : order_by_created_at_desc l ≡ₚ l.
Proof.
  induction l as [|t l IH]; simpl; [reflexivity|].
  rewrite insert_desc_perm. now rewrite IH.
Qed.

Lemma insert_desc_sorted (t : Thought) (l : list Thought) :
  StronglySorted Spec.newer_or_equal l ->
  StronglySorted Spec.newer_or_equal (insert_desc t l).
Proof.
  induction 1 as [|u l Hs IH Hall]; simpl.
  - repeat constructor.
  - destruct (Z.ltb_spec (thought_created_at t) (thought_created_at u)) as [Hlt|Hge].
    + constructor; [exact IH|].
      rewrite insert_desc_perm. constructor; [unfold Spec.newer_or_equal; lia|exact Hall].
    + constructor; [now constructor|].
      constructor; [unfold Spec.newer_or_equal; lia|].
      eapply Forall_impl; [exact Hall|]. unfold Spec.newer_or_equal. intros; lia.
Qed.

Lemma order_sorted (l : list Thought) :
  StronglySorted Spec.newer_or_equal (order_by_created_at_desc l).
Proof.
  induction l as [|t l IH]; simpl; [constructor|].
  now apply insert_desc_sorted.
Qed.

Lemma fits_int64_spec (n : Z) :
  fits_int64 n = true <-> - 2 ^ 63 <= n <= 2 ^ 63 - 1.
Proof. unfold fits_int64. rewrite andb_true_iff, !Z.leb_le. reflexivity. Qed.

(** A limit that fits is bound, and the rows returned are a prefix of the
    rows given. *)
Lemma sql_limit_split {A} (n : Z) (l : list A) :
  - 2 ^ 63 <= n <= 2 ^ 63 - 1 ->
  exists rows rest,
    sql_limit n l = Some rows /\ l = rows ++ rest /\
    (0 <= n -> length rows = Nat.min (Z.to_nat n) (length l)).
Proof.
  intros Hfits. apply fits_int64_spec in Hfits. unfold sql_limit. rewrite Hfits.
  destruct (Z.ltb_spec n 0) as [Hneg|Hpos].
  - exists l, []. split; [reflexivity|]. split; [now rewrite app_nil_r|lia].
  - exists (take (Z.to_nat n) l), (drop (Z.to_nat n) l).
    split; [reflexivity|]. split; [now rewrite take_drop|].
    intros _. apply length_take.
Qed.

(** A limit that does not fit is never bound. *)
Lemma sql_limit_overflow {A} (n : Z) (l : list A) :
  n < - 2 ^ 63 \/ 2 ^ 63 - 1 < n -> sql_limit n l = None.
Proof.
  intros Hout. unfold sql_limit.
  destruct (fits_int64 n) eqn:Hfits; [|reflexivity].
  apply fits_int64_spec in Hfits. lia.
Qed.

End Listing.

(** C7, as stated, fails: [2 ^ 63] is a positive integer, and with it
    [get_thoughts] returns no list, whatever the store holds: the limit
    cannot be bound to the statement's parameter. *)
Lemma C7_counterexample :
  0 < 2 ^ 63 /\
  (forall store : Db, get_thoughts (2 ^ 63) store = None) /\
  get_thoughts (2 ^ 63) empty_db <> Some [].
Proof.
  split; [reflexivity|]. split; [|discriminate].
  intros store. apply sql_limit_overflow. right. lia.
Qed.

(** C7. For a positive [n] that fits a signed integer of 64 bits,
    [get_thoughts n] returns a list of at most
    [min n (number of stored thoughts)] rows, newest first by [created_at],
    and no row when the table is empty; the rows are rows of the table and
    none of the rows left out is newer than a row returned. *)
Theorem C7_list_thoughts (n : Z) (store : Db) :
  0 < n <= 2 ^ 63 - 1 ->
  exists rows,
    get_thoughts n store = Some rows /\
    (length rows <= Nat.min (Z.to_nat n) (length (thoughts store)))%nat /\
    Spec.newest_first rows /\
    (thoughts store = [] -> rows = []) /\
    exists rest,
      thoughts store ≡ₚ rows ++ rest /\
      forall x y, x ∈ rows -> y ∈ rest -> thought_created_at y <= thought_created_at x.
Proof.
  intros Hn. unfold get_thoughts.
  destruct (sql_limit_split n (order_by_created_at_desc (thoughts store)) ltac:(lia))
    as (rows & rest & Hrows & Hsplit & Hlen).
  exists rows. split; [exact Hrows|].
  pose proof (order_sorted (thoughts store)) as Hsorted.
  pose proof (order_perm (thoughts store)) as Hperm.
  rewrite Hsplit in Hsorted, Hperm.
  repeat split.
  - rewrite Hlen by lia.
    apply Permutation_length in Hperm. rewrite length_app in Hperm. lia.
  - unfold Spec.newest_first. eapply StronglySorted_app_1_l, Hsorted.
  - intros Hempty. rewrite Hempty in Hsplit. simpl in Hsplit.
    symmetry in Hsplit. now apply app_eq_nil in Hsplit.
  - exists rest. split; [now symmetry|].
    intros x y Hx Hy.
    apply (StronglySorted_app_1_elem_of _ _ _ x y Hsorted Hx Hy).
Qed.

Lemma C7_list_thoughts_witness :
  exists rows,
    get_thoughts 1 (run Scenario.cfg Scenario.many_thoughts initial).2.(db) = Some rows /\
    (length rows <= Nat.min (Z.to_nat 1)
       (length (thoughts (run Scenario.cfg Scenario.many_thoughts initial).2.(db))))%nat /\
    Spec.newest_first rows.
Proof.
  destruct (C7_list_thoughts 1 (run Scenario.cfg Scenario.many_thoughts initial).2.(db))
    as (rows & Hrows & Hlen & Hsorted & _); [lia|].
  exists rows. split; [exact Hrows|]. split; [exact Hlen|exact Hsorted].
Defined.

(** ** Adding then listing *)

Lemma order_newest_last (l : list Thought) (x : Thought) :
  Forall (fun t => thought_created_at t < thought_created_at x) l ->
  order_by_created_at_desc (l ++ [x]) = x :: order_by_created_at_desc l.
Proof.
  unfold order_by_created_at_desc. rewrite foldr_app. simpl.
  induction 1 as [|t l Ht _ IH]; simpl; [reflexivity|].
  rewrite IH. simpl.
  destruct (Z.ltb_spec (thought_created_at t) (thought_created_at x)); [reflexivity|lia].
Qed.

(** When every stored thought is from an earlier second, the thought just
    added is the one [get_thoughts 1] returns. *)
Lemma add_then_list_strictly_newer (content : string) (t : Z) (store : Db) :
  Forall (fun row => thought_created_at row < current_timestamp t) (thoughts store) ->
  get_thoughts 1 (add_thought content t store).2
  = Some [mkThought (thoughts_seq store + 1) content (current_timestamp t)].
Proof.
  intros Hold. unfold get_thoughts, add_thought. cbn [snd thoughts].
  rewrite order_newest_last by exact Hold. reflexivity.
Qed.

(** C8. Two thoughts added within the same second carry the same
    [created_at]; the ordering keeps them in insertion order, so
    [get_thoughts 1] right after the second [add_thought] returns the first
    thought, not the content just added. *)
Theorem C8_same_second_lists_older_first :
  let db1 := (add_thought "first" 5000100 empty_db).2 in
  let db2 := (add_thought "second" 5000500 db1).2 in
  get_thoughts 1 db2 = Some [mkThought 1 "first" 5000] /\
  thoughts db2 = [mkThought 1 "first" 5000; mkThought 2 "second" 5000] /\
  (run Scenario.cfg
       (Scenario.two_in_one_second
          ++ [(Scenario.env_at 5000900 None, Scenario.list_thoughts 1)]) initial).1
  = [mkResponse 200 (Created 1); mkResponse 200 (Created 2);
     mkResponse 200 (ThoughtList [mkThought 1 "first" 5000])].
Proof. vm_compute. repeat split. Qed.

(** ** The limit of GET /api/thoughts *)

(** A limit that is not negative is capped at 100 rows. *)
Lemma api_get_thoughts_capped (env : Env) (limit : Z) (w : World) (rows : list Thought) :
  0 <= limit ->
  (api_get_thoughts env limit w).1 = Return (mkResponse 200 (ThoughtList rows)) ->
  (length rows <= 100)%nat.
Proof.
  intros Hpos. unfold api_get_thoughts, bind, storage_get_thoughts, ret.
  destruct (storage_up env); simpl; [|discriminate].
  unfold get_thoughts.
  destruct (sql_limit_split (Z.min limit 100)
              (order_by_created_at_desc (thoughts (db w))) ltac:(lia))
    as (rows' & rest & -> & _ & Hlen).
  simpl. intros [= <-]. rewrite Hlen by lia. lia.
Qed.

(** C9. With a negative [limit], [min(limit, 100)] stays negative and the
    query runs without a bound: on a store of 101 thoughts,
    GET /api/thoughts?limit=-1 answers with all 101 of them. *)
Theorem C9_negative_limit_is_unbounded :
  let w := (run Scenario.cfg Scenario.many_thoughts initial).2 in
  length (thoughts (db w)) = 101%nat /\
  exists rows,
    (serve Scenario.cfg (Scenario.env_at 200000 None) (Scenario.list_thoughts (-1)) w).1
    = mkResponse 200 (ThoughtList rows) /\
    length rows = 101%nat.
Proof.
  split; [vm_compute; reflexivity|].
  eexists. split; [vm_compute; reflexivity|]. reflexivity.
Qed.

(** ** Asking a question *)

Lemma len_nonneg (s : string) : 0 <= Text.len s.
Proof. unfold Text.len. lia. Qed.

(** The body of [api_ask] ends in one of the six ways of [Spec.ask_result]. *)
Lemma api_ask_body_cases (env : Env) (request : Request) (question : string) (w : World) :
  Spec.ask_result env request question w (api_ask_body env request question w).
Proof.
  unfold api_ask_body.
  destruct (Text.truthy (Text.strip question)) eqn:Hq; simpl.
  2:{ apply Spec.ask_empty. now apply truthy_false. }
  apply truthy_true in Hq.
  destruct (Z.ltb_spec 500 (Text.len (Text.strip question))) as [Hlong|Hlen].
  { now apply Spec.ask_too_long. }
  assert (Spec.valid_question question) as Hvalid by (split; assumption).
  destruct (anthropic_api_key env) as [api_key|] eqn:Hkey.
  2:{ apply Spec.ask_not_connected; [exact Hvalid|]. now left. }
  destruct (Text.truthy api_key) eqn:Hk; simpl.
  2:{ apply truthy_false in Hk. subst api_key.
      apply Spec.ask_not_connected; [exact Hvalid|]. now right. }
  apply truthy_true in Hk.
  unfold try_except, bind, messages_create, emit, storage_log_question, ret, raise.
  simpl.
  destruct (provider env (Text.strip question)) as [[|[answer|] rest]| |] eqn:Hp; simpl.
  - apply (Spec.ask_failed _ _ _ _ api_key); try assumption. intros; congruence.
  - destruct (storage_up env) eqn:Hup; simpl.
    + rewrite <- app_assoc.
      apply (Spec.ask_answered _ _ _ _ api_key answer rest); assumption.
    + apply (Spec.ask_failed _ _ _ _ api_key); try assumption. intros; congruence.
  - apply (Spec.ask_failed _ _ _ _ api_key); try assumption. intros; congruence.
  - apply (Spec.ask_overwhelmed _ _ _ _ api_key); assumption.
  - apply (Spec.ask_failed _ _ _ _ api_key); try assumption. intros; congruence.
Qed.

(** The decorator: the request is counted first; the body runs only when the
    count is within the limit. *)
Lemma api_ask_unfold (env : Env) (request : Request) (question : string) (w : World) :
  api_ask env request question w
  = let hm := Limiter.hit 3 60000 (get_remote_address request) (now env) (limiter w) in
    if hm.1
    then api_ask_body env request question (mkWorld (db w) hm.2 (trace w))
    else (Raise RateLimitExceeded, mkWorld (db w) hm.2 (trace w)).
Proof.
  unfold api_ask, limit, bind.
  destruct (Limiter.hit 3 60000 (get_remote_address request) (now env) (limiter w))
    as [[] m]; reflexivity.
Qed.

(** One question, from arrival to response. *)
Lemma serve_ask (cfg : Config) (env : Env) (question : string)
    (auth host : option string) (w : World) :
  let request := mkRequest (POST_api_ask question) auth host in
  serve cfg env request w
  = let hm := Limiter.hit 3 60000 (get_remote_address request) (now env) (limiter w) in
    let w0 := mkWorld (db w) hm.2 (trace w) in
    if hm.1
    then (response_of (api_ask_body env request question w0).1,
          (api_ask_body env request question w0).2)
    else (rate_limit_handler, w0).
Proof.
  intros request. unfold serve, dispatch. cbn [route request].
  rewrite api_ask_unfold.
  destruct (Limiter.hit 3 60000 (get_remote_address request) (now env) (limiter w))
    as [[] m]; cbn [fst snd]; [|reflexivity].
  now destruct (api_ask_body env request question (mkWorld (db w) m (trace w))).
Qed.

(** Split one question into the limiter's verdict and, when the request is
    admitted, the way the handler body ends. The admitted case comes
    first. *)
Ltac ask_cases env request question w m o w1 Hcase :=
  let ok := fresh "ok" in
  destruct (Limiter.hit 3 60000 (get_remote_address request) (now env) (limiter w))
    as [ok m];
  cbn [fst snd] in *;
  destruct ok; cbn [fst snd] in *;
  [ pose proof (api_ask_body_cases env request question (mkWorld (db w) m (trace w)))
      as Hcase;
    destruct (api_ask_body env request question (mkWorld (db w) m (trace w)))
      as [o w1];
    cbn [fst snd] in *
  | ].

(** ** The hash of the client address *)

Lemma is_hex_hexdigit (n : Z) : Sha256.is_hex (Sha256.hexdigit n) = true.
Proof.
  unfold Sha256.hexdigit. generalize (Z.to_nat n) as k. intros k.
  do 16 (destruct k as [|k]; [reflexivity|]).
  destruct k; reflexivity.
Qed.

Lemma hexdigest_length (H : Sha256.words8) :
  String.length (Sha256.hexdigest H) = 64%nat.
Proof. destruct H. reflexivity. Qed.

Lemma hexdigest_hex (H : Sha256.words8) :
  Text.all_chars Sha256.is_hex (Sha256.hexdigest H) = true.
Proof.
  destruct H.
  cbn [Sha256.hexdigest Sha256.hex_word fold_right Text.all_chars].
  rewrite !is_hex_hexdigit. reflexivity.
Qed.

Lemma prefix_length (n : nat) (s : string) :
  String.length (Text.prefix n s) = Nat.min n (String.length s).
Proof.
  revert s. induction n as [|n IH]; intros [|c s]; simpl; try reflexivity.
  now rewrite IH.
Qed.

Lemma prefix_all_chars (p : ascii -> bool) (n : nat) (s : string) :
  Text.all_chars p s = true -> Text.all_chars p (Text.prefix n s) = true.
Proof.
  revert s. induction n as [|n IH]; intros [|c s]; simpl; try reflexivity.
  intros [Hc Hs]%andb_prop. rewrite Hc. simpl. now apply IH.
Qed.

(** The stored hash is sixteen lowercase hexadecimal digits. *)
Lemma ip_hash_hex16 (address : string) : Spec.hex16 (ip_hash_of address) = true.
Proof.
  unfold Spec.hex16, ip_hash_of.
  rewrite prefix_length, hexdigest_length.
  apply andb_true_intro. split; [reflexivity|].
  apply prefix_all_chars, hexdigest_hex.
Qed.

(** An address with a character that is not a hexadecimal digit, such as
    the dot of an IPv4 address or the colon of an IPv6 address, is not a
    text of sixteen hexadecimal digits. *)
Lemma not_hex16_of_char (c : ascii) (s : string) :
  Sha256.is_hex c = false -> In c (list_ascii_of_string s) -> Spec.hex16 s = false.
Proof.
  intros Hc Hin. unfold Spec.hex16. apply andb_false_intro2.
  induction s as [|a s IH]; simpl in *; [contradiction|].
  destruct Hin as [->|Hin].
  - now rewrite Hc.
  - rewrite (IH Hin). apply andb_false_r.
Qed.

Example sha256_abc :
  Sha256.hexdigest (Sha256.sha256 (Text.encode "abc"))
  = "ba7816bf8f01cfea414140de5dae2223b00361a396177a9cb410ff61f20015ad".
Proof. vm_compute. reflexivity. Qed.

Example sha256_two_blocks :
  Sha256.hexdigest (Sha256.sha256
    (Text.encode "abcdbcdecdefdefgefghfghighijhijkijkljklmklmnlmnomnopnopq"))
  = "248d6a61d20638b8e5c026930c3e6039a33ce45964ff2167f6ecedd419db06c1".
Proof. vm_compute. reflexivity. Qed.

Example ip_hash_of_loopback : ip_hash_of "127.0.0.1" = "12ca17b49af22894".
Proof. vm_compute. reflexivity. Qed.

(** C2. When POST /api/ask answers with status 200, the request made one
    call to the generation API with the trimmed question and then wrote
    exactly one row to the question log before the handler returned its
    response: the row holds the trimmed question, the answer, and as
    [ip_hash] the first 16 hexadecimal digits of the SHA-256 digest of the
    client address, which differs from any address that is not itself such
    a text. *)
Theorem C2_successful_ask_logs_once (cfg : Config) (env : Env) (question : string)
    (auth host : option string) (w w' : World) (r : Response) :
  let request := mkRequest (POST_api_ask question) auth host in
  let address := get_remote_address request in
  serve cfg env request w = (r, w') ->
  status_code r = 200 ->
  exists api_key answer rest row h,
    r = mkResponse 200 (Answer answer) /\
    provider env (Text.strip question) = Message (TextBlock answer :: rest) /\
    trace w' = trace w ++ [MessagesCreate api_key (Text.strip question);
                           InsertQuestion row] /\
    questions (db w') = questions (db w) ++ [row] /\
    thoughts (db w') = thoughts (db w) /\
    question_text row = Text.strip question /\
    question_answer row = Some answer /\
    question_ip_hash row = Some h /\
    h = Text.prefix 16 (Sha256.hexdigest (Sha256.sha256 (Text.encode address))) /\
    String.length h = 16%nat /\
    Text.all_chars Sha256.is_hex h = true /\
    (Spec.hex16 address = false -> h <> address).
Proof.
  intros request address Hserve H200.
  subst request. rewrite serve_ask in Hserve. cbv zeta in Hserve.
  set (request := mkRequest (POST_api_ask question) auth host) in *.
  ask_cases env request question w m o w1 Hcase.
  2:{ injection Hserve as <- <-. discriminate H200. }
  injection Hserve as <- <-.
  inversion Hcase as [| | | | |api_key answer rest Hvalid Hkey Hne Hp Hup];
    subst; simpl in H200; try discriminate H200.
  pose proof (ip_hash_hex16 address) as Hhex.
  unfold Spec.hex16 in Hhex. apply andb_prop in Hhex as [Hlen Hall].
  exists api_key, answer, rest,
    (new_question (Text.strip question) answer (ip_hash_of address) (now env) (db w)),
    (ip_hash_of address).
  repeat split; try reflexivity.
  - exact Hp.
  - now apply Nat.eqb_eq.
  - exact Hall.
  - intros Hnot Heq. rewrite <- Heq in Hnot.
    now rewrite ip_hash_hex16 in Hnot.
Qed.

Lemma C2_successful_ask_logs_once_witness :
  let env := Scenario.env_at 7000000 (Some "sk-test") in
  let request := Scenario.ask "  What is time? " in
  let w' := (serve Scenario.cfg env request initial).2 in
  exists row,
    questions (db w') = [row] /\
    question_text row = "What is time?" /\
    question_ip_hash row = Some "130e4daba9786013".
Proof.
  intros env request w'.
  destruct (C2_successful_ask_logs_once Scenario.cfg env "  What is time? "
              None (Some "10.0.0.7") initial w'
              (serve Scenario.cfg env request initial).1)
    as (api_key & answer & rest & row & h & _ & _ & _ & Hq & _ & Htext & _ & Hh & Hdef & _).
  - apply surjective_pairing.
  - vm_compute. reflexivity.
  - exists row. split; [exact Hq|]. split; [exact Htext|].
    rewrite Hh, Hdef. vm_compute. reflexivity.
Defined.

(** ** Questions without a generation credential *)

Lemma valid_question_not_rejected (question : string) :
  Spec.valid_question question ->
  Text.strip question <> EmptyString /\ ~ 500 < Text.len (Text.strip question).
Proof. intros [Hne Hlen]. split; [exact Hne|lia]. Qed.

Lemma no_credential_no_key (env : Env) (api_key : string) :
  Spec.no_credential env -> anthropic_api_key env = Some api_key ->
  api_key = EmptyString.
Proof. intros [Hnone|Hempty] Hkey; congruence. Qed.

(** C3, as stated, fails: the fourth valid question within a minute from one
    address, with no generation credential configured, is answered 429 by
    the rate limiter and not 503. *)
Lemma C3_counterexample :
  Spec.valid_question "What is time?" /\
  Spec.no_credential (Scenario.env_at 7000900 None) /\
  map status_code
      (run Scenario.cfg
           (Scenario.three_questions
              ++ [(Scenario.env_at 7000900 None, Scenario.ask "What is time?")])
           initial).1
  = [503; 503; 503; 429].
Proof.
  split; [split; vm_compute; discriminate|].
  split; [now left|]. vm_compute. reflexivity.
Qed.

(** C3, amended. A valid question with no generation credential configured is
    answered 503 when the rate limiter admits the request and with the rate
    limiter's 429 when it does not; either way no call to the generation API
    is made and nothing is written to the store. *)
Theorem C3_no_credential (cfg : Config) (env : Env) (question : string)
    (auth host : option string) (w : World) :
  let request := mkRequest (POST_api_ask question) auth host in
  let admitted :=
    (Limiter.hit 3 60000 (get_remote_address request) (now env) (limiter w)).1 in
  let r := (serve cfg env request w).1 in
  let w' := (serve cfg env request w).2 in
  Spec.valid_question question ->
  Spec.no_credential env ->
  (admitted = true ->
   r = mkResponse 503 (Detail "I'm not connected right now. Check back later.")) /\
  (admitted = false -> Spec.rate_limited r /\ status_code r = 429) /\
  trace w' = trace w /\
  db w' = db w.
Proof.
  intros request admitted r w' Hvalid Hnone.
  subst admitted r w' request. rewrite serve_ask. cbv zeta.
  set (request := mkRequest (POST_api_ask question) auth host) in *.
  ask_cases env request question w m o w1 Hcase.
  2:{ split; [discriminate|]. split; [intros _; split; reflexivity|].
      split; reflexivity. }
  destruct (valid_question_not_rejected _ Hvalid) as [Hne Hlen].
  inversion Hcase as [| | |k ? Hkey Hk|k ? Hkey Hk|k ? ? ? Hkey Hk]; subst;
    try contradiction;
    try (exfalso; apply Hk; now apply (no_credential_no_key env)).
  simpl. split; [intros _; reflexivity|]. split; [discriminate|].
  split; reflexivity.
Qed.

Lemma C3_no_credential_witness :
  (serve Scenario.cfg (Scenario.env_at 7000000 None)
         (Scenario.ask "What is time?") initial).1
  = mkResponse 503 (Detail "I'm not connected right now. Check back later.").
Proof.
  apply (C3_no_credential Scenario.cfg (Scenario.env_at 7000000 None)
           "What is time?" None (Some "10.0.0.7") initial).
  - split; vm_compute; discriminate.
  - now left.
  - vm_compute. reflexivity.
Defined.

(** ** Validation of the question *)

(** C4. For a request the rate limiter admits, POST /api/ask answers 400
    when the question is empty or only white space, and 400 when the trimmed
    question is longer than 500 characters (501 included); a trimmed
    question of exactly 500 characters is not answered 400, and with a
    credential configured it reaches the generation API. Whenever the answer
    is 400, no call was made and the store is as before. *)
Theorem C4_question_validation (cfg : Config) (env : Env) (question : string)
    (auth host : option string) (w : World) :
  let request := mkRequest (POST_api_ask question) auth host in
  let admitted :=
    (Limiter.hit 3 60000 (get_remote_address request) (now env) (limiter w)).1 in
  let r := (serve cfg env request w).1 in
  let w' := (serve cfg env request w).2 in
  (admitted = true ->
   (Text.all_chars Text.isspace question = true ->
    r = mkResponse 400 (Detail "Empty question")) /\
   (500 < Text.len (Text.strip question) ->
    r = mkResponse 400 (Detail "Question too long (max 500 chars)")) /\
   (Text.len (Text.strip question) = 500 ->
    status_code r <> 400 /\
    forall api_key,
      anthropic_api_key env = Some api_key -> api_key <> EmptyString ->
      exists later,
        trace w' = trace w ++ MessagesCreate api_key (Text.strip question) :: later)) /\
  (status_code r = 400 -> trace w' = trace w /\ db w' = db w).
Proof.
  intros request admitted r w'.
  subst admitted r w' request. rewrite serve_ask. cbv zeta.
  set (request := mkRequest (POST_api_ask question) auth host) in *.
  ask_cases env request question w m o w1 Hcase.
  2:{ split; [discriminate|]. intros H; discriminate H. }
  split.
  - intros _. split; [|split].
    + intros Hws%strip_empty_iff.
      inversion Hcase as [| |[Hne _]|? [Hne _]|? [Hne _]|? ? ? [Hne _]]; subst;
        try contradiction. reflexivity.
    + intros Hlong.
      inversion Hcase as [Hempty| |[_ Hlen]|? [_ Hlen]|? [_ Hlen]|? ? ? [_ Hlen]];
        subst; try lia; try reflexivity.
      rewrite Hempty in Hlong. vm_compute in Hlong. discriminate Hlong.
    + intros H500.
      inversion Hcase as [Hempty|Hne Hlong|Hvalid Hnone|k Hvalid Hkey Hk Hp
                         |k Hvalid Hkey Hk Hp|k a rest Hvalid Hkey Hk Hp Hup];
        subst; simpl.
      * rewrite Hempty in H500. vm_compute in H500. discriminate H500.
      * lia.
      * split; [discriminate|]. intros api_key Hkey Hk. exfalso. apply Hk.
        now apply (no_credential_no_key env).
      * split; [discriminate|]. intros api_key Hkey' Hk'.
        exists []. congruence.
      * split; [discriminate|]. intros api_key Hkey' Hk'.
        exists []. congruence.
      * split; [discriminate|]. intros api_key Hkey' Hk'.
        eexists. replace api_key with k by congruence. reflexivity.
  - inversion Hcase; subst; simpl; intros H400; try discriminate H400;
      split; reflexivity.
Qed.

Lemma C4_question_validation_witness :
  let env := Scenario.env_at 7000000 (Some "sk-test") in
  (serve Scenario.cfg env (Scenario.ask (Scenario.question_of_length 501)) initial).1
  = mkResponse 400 (Detail "Question too long (max 500 chars)") /\
  status_code
    (serve Scenario.cfg env (Scenario.ask (Scenario.question_of_length 500)) initial).1
  <> 400 /\
  (serve Scenario.cfg env (Scenario.ask "   ") initial).1
  = mkResponse 400 (Detail "Empty question").
Proof.
  intros env. split; [|split].
  - pose proof (C4_question_validation Scenario.cfg env
                  (Scenario.question_of_length 501) None (Some "10.0.0.7") initial) as H.
    cbv zeta in H. destruct H as [H _].
    destruct H as (_ & Hlong & _); [vm_compute; reflexivity|].
    apply Hlong. vm_compute. reflexivity.
  - pose proof (C4_question_validation Scenario.cfg env
                  (Scenario.question_of_length 500) None (Some "10.0.0.7") initial) as H.
    cbv zeta in H. destruct H as [H _].
    destruct H as (_ & _ & H500); [vm_compute; reflexivity|].
    apply H500. vm_compute. reflexivity.
  - pose proof (C4_question_validation Scenario.cfg env "   " None
                  (Some "10.0.0.7") initial) as H.
    cbv zeta in H. destruct H as [H _].
    destruct H as (Hempty & _ & _); [vm_compute; reflexivity|].
    apply Hempty. reflexivity.
Defined.

(** ** Rounding to the nearest double *)

Section DoubleFacts.
Import Double.

Lemma rne_bounds (p q : Z) : 0 < q -> p / q <= rne p q <= p / q + 1.
Proof.
  intros Hq. unfold rne.
  destruct (2 * (p mod q) <? q); [lia|].
  destruct (q <? 2 * (p mod q)); [lia|].
  destruct (Z.even (p / q)); lia.
Qed.

Lemma rne_exact (p q : Z) : 0 < q -> p mod q = 0 -> rne p q = p / q.
Proof.
  intros Hq Hr. unfold rne. rewrite Hr.
  destruct (Z.ltb_spec (2 * 0) q); [reflexivity|lia].
Qed.

(** Rounding never crosses an integer. *)
Lemma rne_le (p q k : Z) : 0 < q -> p <= k * q -> rne p q <= k.
Proof.
  intros Hq Hle.
  assert (p / q <= k) as Hd by (apply Z.div_le_upper_bound; lia).
  destruct (Z.eq_dec (p / q) k) as [Heq|Hne].
  - rewrite rne_exact; [lia|exact Hq|].
    pose proof (Z.div_mod p q ltac:(lia)) as Hdm.
    pose proof (Z.mod_pos_bound p q Hq). nia.
  - pose proof (rne_bounds p q Hq). lia.
Qed.

Lemma rne_ge (p q k : Z) : 0 < q -> k * q <= p -> k <= rne p q.
Proof.
  intros Hq Hle.
  assert (k <= p / q) as Hd by (apply Z.div_le_lower_bound; lia).
  pose proof (rne_bounds p q Hq). lia.
Qed.

(** The exponent chosen for a magnitude [n]: when it is not the least one,
    [n] has at least 53 bits above it. *)
Lemma spacing_floor (n : Z) :
  0 <= n ->
  let e := Z.max 0 (Z.log2 n - 52) in
  0 <= e /\ (0 < e -> 2 ^ (52 + e) <= n).
Proof.
  intros Hn e. subst e. split; [lia|]. intros He.
  assert (0 < n) as Hpos.
  { destruct (Z.eq_dec n 0) as [->|]; [simpl in He; lia|lia]. }
  pose proof (Z.log2_spec n Hpos) as [Hlow _].
  replace (52 + Z.max 0 (Z.log2 n - 52)) with (Z.log2 n) by lia. exact Hlow.
Qed.

Lemma coarse_multiple (m e e' : Z) :
  0 <= e <= e' -> exists k, m * 2 ^ e' = k * 2 ^ e.
Proof.
  intros He. exists (m * 2 ^ (e' - e)).
  rewrite <- Z.mul_assoc, <- Z.pow_add_r by lia. do 2 f_equal. lia.
Qed.

Lemma fine_small (m e e' : Z) :
  0 <= e' < e -> 0 <= m < 2 ^ 53 -> m * 2 ^ e' < 2 ^ (52 + e).
Proof.
  intros He Hm.
  assert (0 < 2 ^ e') by (apply Z.pow_pos_nonneg; lia).
  assert (2 ^ 53 * 2 ^ e' <= 2 ^ (52 + e)).
  { rewrite <- Z.pow_add_r by lia. apply Z.pow_le_mono_r; lia. }
  nia.
Qed.

(** Rounding is monotone against doubles: a quotient that does not exceed a
    double is not rounded above it, and one that reaches a double is not
    rounded below it. *)
Lemma round_le (p q r : Z) :
  0 <= p -> 0 < q -> representable r -> p <= r * q -> round p q <= r.
Proof.
  intros Hp Hq (m & e' & He' & Hm & -> & Hfin) Hle.
  unfold round. destruct (Z.ltb_spec p 0); [lia|]. unfold round_pos.
  assert (0 <= p / q) as Hn by (apply Z.div_pos; lia).
  destruct (spacing_floor (p / q) Hn) as [He Hbig].
  set (e := Z.max 0 (Z.log2 (p / q) - 52)) in *.
  assert (0 < 2 ^ e) as Hg by (apply Z.pow_pos_nonneg; lia).
  assert (rne p (q * 2 ^ e) * 2 ^ e <= m * 2 ^ e') as Hy.
  { destruct (Z.le_gt_cases e e') as [Hcoarse|Hfine].
    - destruct (coarse_multiple m e e' ltac:(lia)) as [k Hk]. rewrite Hk in *.
      apply Z.mul_le_mono_nonneg_r; [lia|]. apply rne_le; [lia|]. nia.
    - exfalso. pose proof (fine_small m e e' ltac:(lia) Hm) as Hsmall.
      specialize (Hbig ltac:(lia)).
      pose proof (Z.mul_div_le p q Hq). nia. }
  destruct (Z.leb_spec infinity (rne p (q * 2 ^ e) * 2 ^ e)); lia.
Qed.

Lemma round_ge (p q r : Z) :
  0 <= p -> 0 < q -> representable r -> r * q <= p -> r <= round p q.
Proof.
  intros Hp Hq (m & e' & He' & Hm & -> & Hfin) Hle.
  unfold round. destruct (Z.ltb_spec p 0); [lia|]. unfold round_pos.
  assert (0 <= p / q) as Hn by (apply Z.div_pos; lia).
  destruct (spacing_floor (p / q) Hn) as [He Hbig].
  set (e := Z.max 0 (Z.log2 (p / q) - 52)) in *.
  assert (0 < 2 ^ e) as Hg by (apply Z.pow_pos_nonneg; lia).
  assert (m * 2 ^ e' <= rne p (q * 2 ^ e) * 2 ^ e) as Hy.
  { destruct (Z.le_gt_cases e e') as [Hcoarse|Hfine].
    - destruct (coarse_multiple m e e' ltac:(lia)) as [k Hk]. rewrite Hk in *.
      apply Z.mul_le_mono_nonneg_r; [lia|]. apply rne_ge; [lia|]. nia.
    - pose proof (fine_small m e e' ltac:(lia) Hm) as Hsmall.
      specialize (Hbig ltac:(lia)).
      assert (2 ^ 52 <= rne p (q * 2 ^ e)) as Hm52.
      { apply rne_ge; [lia|].
        rewrite Z.pow_add_r in Hbig by lia.
        pose proof (Z.mul_div_le p q Hq). nia. }
      rewrite Z.pow_add_r in Hsmall by lia. nia. }
  destruct (Z.leb_spec infinity (rne p (q * 2 ^ e) * 2 ^ e)); lia.
Qed.

(** The doubles of some clock readings and sums, as a significand and an
    exponent over the unit of 2^-1074 seconds: 0.1, 0.001, 1730712345.678,
    2147483588.01, and the sums 2147483588.01 + 60.0, which crosses 2^31,
    and 549755813828.007 + 60.0. *)
Example double_vectors :
  of_ms 100 = 3602879701896397 * 2 ^ 1019 /\
  of_ms 1 = 1152921504606847 * 2 ^ 1014 /\
  of_ms 1730712345678 = 3629566857163309 * 2 ^ 1053 /\
  of_ms 2147483588010 = 9007199003124695 * 2 ^ 1052 /\
  add (of_ms 2147483588010) (of_ms 60000) = 1125899906847867 * 2 ^ 1055 /\
  add (of_ms 549755813828007) (of_ms 60000) = 2251799813685277 * 2 ^ 1062 /\
  of_ms 549755813888007 = 4503599627370553 * 2 ^ 1061 /\
  of_ms (-100) = - of_ms 100.
Proof. vm_compute. repeat split. Qed.

(** The grid of 2^-11 seconds. *)
Lemma grid_pos : 0 < grid.
Proof. reflexivity. Qed.

Lemma one_grid : one = 2048 * grid.
Proof. vm_compute. reflexivity. Qed.

Lemma grid_finite : 2 ^ 53 * grid < infinity.
Proof. vm_compute. reflexivity. Qed.

Lemma grid_representable (k : Z) : 0 <= k < 2 ^ 53 -> representable (k * grid).
Proof.
  intros Hk. exists k, 1063. split; [lia|]. split; [exact Hk|].
  split; [reflexivity|]. pose proof grid_finite. pose proof grid_pos. nia.
Qed.

Lemma round_nonneg (p q : Z) : 0 <= p -> 0 < q -> 0 <= round p q.
Proof.
  intros Hp Hq. apply (round_ge p q 0 Hp Hq); [|lia].
  replace 0 with (0 * grid) by lia. apply grid_representable. lia.
Qed.

Lemma of_ms_upper (s k : Z) :
  0 <= s -> 0 <= k < 2 ^ 53 -> 2048 * s <= 1000 * k -> of_ms s <= k * grid.
Proof.
  intros Hs Hk Hle. unfold of_ms. pose proof grid_pos.
  apply round_le; [rewrite one_grid; nia|lia|now apply grid_representable|].
  rewrite one_grid. nia.
Qed.

Lemma of_ms_lower (s k : Z) :
  0 <= s -> 0 <= k < 2 ^ 53 -> 1000 * k <= 2048 * s -> k * grid <= of_ms s.
Proof.
  intros Hs Hk Hle. unfold of_ms. pose proof grid_pos.
  apply round_ge; [rewrite one_grid; nia|lia|now apply grid_representable|].
  rewrite one_grid. nia.
Qed.

Lemma of_ms_nonpos (t : Z) : t <= 0 -> of_ms t <= 0.
Proof.
  intros Ht. unfold of_ms, round.
  assert (0 < one) as Hone by reflexivity.
  destruct (Z.ltb_spec (t * one) 0) as [Hneg|Hzero].
  - pose proof (round_nonneg (- (t * one)) 1000 ltac:(lia) ltac:(lia)) as Hr.
    unfold round in Hr. destruct (Z.ltb_spec (- (t * one)) 0); lia.
  - assert (t = 0) as -> by nia. vm_compute. discriminate.
Qed.

Lemma add_upper (x y k : Z) :
  0 <= x + y -> 0 <= k < 2 ^ 53 -> x + y <= k * grid -> add x y <= k * grid.
Proof.
  intros Hxy Hk Hle. unfold add.
  apply round_le; [exact Hxy|lia|now apply grid_representable|lia].
Qed.

Lemma add_lower (x y k : Z) :
  0 <= k < 2 ^ 53 -> k * grid <= x + y -> k * grid <= add x y.
Proof.
  intros Hk Hle. unfold add. pose proof grid_pos.
  apply round_ge; [nia|lia|now apply grid_representable|lia].
Qed.

Lemma floor_1000 (n : Z) : 1000 * (n / 1000) <= n < 1000 * (n / 1000) + 1000.
Proof.
  pose proof (Z.div_mod n 1000 ltac:(lia)).
  pose proof (Z.mod_pos_bound n 1000 ltac:(lia)). lia.
Qed.

(** Sixty seconds is a double. *)
Lemma of_ms_minute : of_ms 60000 = 122880 * grid.
Proof. vm_compute. reflexivity. Qed.

(** A window opened at [s] has closed for a clock that reads more than a
    minute later. *)
Lemma closes_before (s t : Z) :
  0 <= s -> s + 60000 < t -> t < 2 ^ 50 ->
  add (of_ms s) (of_ms 60000) <= of_ms t.
Proof.
  intros Hs Hlate Ht. rewrite of_ms_minute.
  set (ks := (2048 * s + 999) / 1000).
  set (kt := 2048 * t / 1000).
  assert (0 <= ks /\ 2048 * s <= 1000 * ks /\ ks + 122880 <= kt /\
          1000 * kt <= 2048 * t /\ kt < 2 ^ 53) as (Hks & Hup & Hgap & Hlow & Hkt).
  { change (2 ^ 50) with 1125899906842624 in Ht.
    change (2 ^ 53) with 9007199254740992.
    pose proof (floor_1000 (2048 * s + 999)). pose proof (floor_1000 (2048 * t)).
    lia. }
  pose proof grid_pos as Hg.
  pose proof (of_ms_upper s ks Hs ltac:(lia) Hup) as Hsu.
  pose proof (of_ms_lower s 0 Hs ltac:(lia) ltac:(lia)) as Hs0.
  pose proof (of_ms_lower t kt ltac:(lia) ltac:(lia) Hlow) as Htl.
  pose proof (add_upper (of_ms s) (122880 * grid) (ks + 122880)
                ltac:(nia) ltac:(lia) ltac:(nia)) as Hadd.
  nia.
Qed.

(** It is still open for a clock that reads less than a minute later. *)
Lemma open_until (s t : Z) :
  0 <= s < 2 ^ 50 -> t < s + 60000 ->
  of_ms t < add (of_ms s) (of_ms 60000).
Proof.
  intros Hs Hearly. rewrite of_ms_minute.
  set (ks := 2048 * s / 1000).
  assert (0 <= ks /\ 1000 * ks <= 2048 * s /\ ks + 122880 < 2 ^ 53)
    as (Hks & Hlow & Hkb).
  { change (2 ^ 50) with 1125899906842624 in Hs.
    change (2 ^ 53) with 9007199254740992.
    pose proof (floor_1000 (2048 * s)). lia. }
  pose proof grid_pos as Hg.
  pose proof (of_ms_lower s ks ltac:(lia) ltac:(lia) Hlow) as Hsl.
  pose proof (add_lower (of_ms s) (122880 * grid) (ks + 122880)
                ltac:(lia) ltac:(nia)) as Hadd.
  destruct (Z.le_gt_cases t 0) as [Hneg|Hpos].
  - pose proof (of_ms_nonpos t Hneg). nia.
  - set (kt := (2048 * t + 999) / 1000).
    assert (0 <= kt /\ 2048 * t <= 1000 * kt /\ kt < ks + 122880)
      as (Hkt & Hup & Hgap).
    { pose proof (floor_1000 (2048 * t + 999)). pose proof (floor_1000 (2048 * s)).
      lia. }
    pose proof (of_ms_upper t kt ltac:(lia) ltac:(lia) Hup) as Htu.
    nia.
Qed.

End DoubleFacts.

(** ** The rate limiter *)

Section LimiterFacts.
Import Limiter.

Variables (amount expiry : Z) (key : string).

(** What [expire] leaves of a key whose window has closed, and of one
    whose window is open. *)
Lemma expire_fresh (t : Z) (m : MemoryStorage) :
  Spec.no_open_window key t m -> storage (expire key t m) !! key = None.
Proof.
  unfold Spec.no_open_window, expire. intros Hfresh.
  destruct (expirations m !! key) as [closes|] eqn:Hexp.
  - change (default 0 (Some closes)) with closes.
    destruct (Z.leb_spec closes (Double.of_ms t)); [|lia].
    apply lookup_delete_eq.
  - destruct (default 0 None <=? Double.of_ms t); [apply lookup_delete_eq|exact Hfresh].
Qed.

Lemma expire_open (t closes : Z) (m : MemoryStorage) :
  expirations m !! key = Some closes -> Double.of_ms t < closes ->
  expire key t m = m.
Proof.
  unfold expire. intros -> Hopen.
  change (default 0 (Some closes)) with closes.
  destruct (Z.leb_spec closes (Double.of_ms t)); [lia|reflexivity].
Qed.

Lemma expire_other (other : string) (t : Z) (m : MemoryStorage) :
  other <> key ->
  storage (expire other t m) !! key = storage m !! key /\
  expirations (expire other t m) !! key = expirations m !! key.
Proof.
  unfold expire. intros Hne.
  destruct (default 0 (expirations m !! other) <=? Double.of_ms t);
    cbn [storage expirations]; rewrite ?lookup_delete_ne by exact Hne;
    split; reflexivity.
Qed.

(** [expire] forgets the key or changes nothing. *)
Lemma expire_cases (t : Z) (m : MemoryStorage) :
  (storage (expire key t m) !! key = None /\
   expirations (expire key t m) !! key = None) \/
  expire key t m = m.
Proof.
  unfold expire.
  destruct (default 0 (expirations m !! key) <=? Double.of_ms t); [left|now right].
  cbn [storage expirations]. now rewrite !lookup_delete_eq.
Qed.

Lemma hit_unfold (t : Z) (m : MemoryStorage) :
  hit amount expiry key t m
  = let m1 := expire key t m in
    let count := default 0 (storage m1 !! key) + 1 in
    (count <=? amount,
     mkStorage (<[key := count]> (storage m1))
               (if count =? 1
                then <[key := Double.add (Double.of_ms t) (Double.of_ms expiry)]>
                       (expirations m1)
                else expirations m1)).
Proof. reflexivity. Qed.

(** A hit on a key with no open window opens one and counts one. *)
Lemma hit_fresh (t : Z) (m : MemoryStorage) :
  Spec.no_open_window key t m ->
  let hm := hit amount expiry key t m in
  hm.1 = (1 <=? amount) /\
  storage hm.2 !! key = Some 1 /\
  expirations hm.2 !! key = Some (Double.add (Double.of_ms t) (Double.of_ms expiry)).
Proof.
  intros Hfresh. rewrite hit_unfold. cbv zeta.
  rewrite (expire_fresh t m Hfresh).
  change (default 0 None + 1) with 1. change (1 =? 1) with true.
  cbn [fst snd storage expirations]. now rewrite !lookup_insert_eq.
Qed.

(** A hit inside an open window counts one more and leaves the window's
    end where it was. *)
Lemma hit_inside (t count closes : Z) (m : MemoryStorage) :
  storage m !! key = Some count ->
  expirations m !! key = Some closes ->
  1 <= count -> Double.of_ms t < closes ->
  let hm := hit amount expiry key t m in
  hm.1 = (count + 1 <=? amount) /\
  storage hm.2 !! key = Some (count + 1) /\
  expirations hm.2 !! key = Some closes.
Proof.
  intros Hcount Hexp Hpos Hopen. rewrite hit_unfold. cbv zeta.
  rewrite (expire_open t closes m Hexp Hopen), Hcount.
  change (default 0 (Some count)) with count.
  destruct (Z.eqb_spec (count + 1) 1) as [Hone|_]; [lia|].
  cbn [fst snd storage expirations]. now rewrite lookup_insert_eq.
Qed.

(** A hit on one key leaves every other key alone. *)
Lemma hit_other (other : string) (t : Z) (m : MemoryStorage) :
  other <> key ->
  let hm := hit amount expiry other t m in
  storage hm.2 !! key = storage m !! key /\
  expirations hm.2 !! key = expirations m !! key.
Proof.
  intros Hne. unfold hit, incr. cbv zeta. cbn [snd].
  destruct (expire_other other t m Hne) as [Hs He].
  cbn [storage expirations]. rewrite lookup_insert_ne by exact Hne.
  split; [exact Hs|].
  destruct (_ =? 1); [rewrite lookup_insert_ne by exact Hne|]; exact He.
Qed.

(** A hit whose own window would have closed by [t] leaves no window open
    at [t]. *)
Lemma hit_stays_quiet (s t : Z) (m : MemoryStorage) :
  Double.add (Double.of_ms s) (Double.of_ms expiry) <= Double.of_ms t ->
  Spec.no_open_window key t m ->
  Spec.no_open_window key t (hit amount expiry key s m).2.
Proof.
  intros Hold Hfresh. rewrite hit_unfold. cbv zeta.
  unfold Spec.no_open_window in *. cbn [snd storage expirations].
  destruct (expire_cases s m) as [[Hcount Hnone]|Hsame].
  - rewrite Hcount. change (default 0 None + 1 =? 1) with true.
    rewrite !lookup_insert_eq. exact Hold.
  - rewrite Hsame.
    destruct (expirations m !! key) as [closes|] eqn:Hexp.
    + destruct (_ =? 1); [rewrite !lookup_insert_eq; exact Hold|].
      rewrite Hexp. exact Hfresh.
    + rewrite Hfresh. change (default 0 None + 1 =? 1) with true.
      rewrite !lookup_insert_eq. exact Hold.
Qed.

End LimiterFacts.

(** ** The limiter inside the server *)

Lemma ask_result_frame (env : Env) (request : Request) (question : string)
    (w : World) (res : Outcome Response * World) :
  Spec.ask_result env request question w res ->
  limiter res.2 = limiter w /\
  thoughts (db res.2) = thoughts (db w) /\
  ~ Spec.rate_limited (response_of res.1).
Proof.
  unfold Spec.rate_limited, rate_limit_handler.
  destruct 1; simpl; (split; [reflexivity|split; [reflexivity|discriminate]]).
Qed.

Lemma serve_ask_route (cfg : Config) (env : Env) (request : Request)
    (question : string) (w : World) :
  route request = POST_api_ask question ->
  serve cfg env request w
  = let hm := Limiter.hit 3 60000 (get_remote_address request) (now env) (limiter w) in
    let w0 := mkWorld (db w) hm.2 (trace w) in
    if hm.1
    then (response_of (api_ask_body env request question w0).1,
          (api_ask_body env request question w0).2)
    else (rate_limit_handler, w0).
Proof.
  destruct request as [rt auth host]. simpl. intros ->. apply serve_ask.
Qed.

(** What a question does to the limiter and when it is turned away. *)
Lemma serve_ask_hit (cfg : Config) (env : Env) (request : Request)
    (question : string) (w : World) :
  route request = POST_api_ask question ->
  let hm := Limiter.hit 3 60000 (get_remote_address request) (now env) (limiter w) in
  let s := serve cfg env request w in
  limiter s.2 = hm.2 /\
  thoughts (db s.2) = thoughts (db w) /\
  (hm.1 = true -> ~ Spec.rate_limited s.1) /\
  (hm.1 = false -> s.1 = rate_limit_handler /\ trace s.2 = trace w /\ db s.2 = db w).
Proof.
  intros Hroute hm s. subst s. rewrite (serve_ask_route _ _ _ _ _ Hroute).
  cbv zeta. fold hm. destruct hm as [ok m]. cbn [fst snd].
  destruct ok; cbn [fst snd].
  - destruct (ask_result_frame _ _ _ _ _
                (api_ask_body_cases env request question (mkWorld (db w) m (trace w))))
      as (Hlim & Hth & Hnot).
    split; [exact Hlim|]. split; [exact Hth|].
    split; [intros _; exact Hnot|discriminate].
  - split; [reflexivity|]. split; [reflexivity|].
    split; [discriminate|]. intros _. repeat split; reflexivity.
Qed.

(** A request that is not a question leaves the limiter as it was. *)
Lemma serve_other_route (cfg : Config) (env : Env) (request : Request) (w : World) :
  (forall question, route request <> POST_api_ask question) ->
  limiter (serve cfg env request w).2 = limiter w.
Proof.
  intros Hroute. unfold serve, dispatch.
  destruct (route request) as [|limit|content|question|] eqn:Hr.
  - unfold home, bind, storage_get_thoughts, ret.
    destruct (storage_up env); [destruct (get_thoughts 20 (db w))|]; easy.
  - unfold api_get_thoughts, bind, storage_get_thoughts, ret.
    destruct (storage_up env); [destruct (get_thoughts _ (db w))|]; easy.
  - unfold api_add_thought, bind at 1.
    destruct (verify_admin_cases cfg request w) as [[_ ->]|[_ ->]]; [|reflexivity].
    destruct (negb (Text.truthy (Text.strip content))); [reflexivity|].
    unfold bind, storage_add_thought, ret. now destruct (storage_up env).
  - now destruct (Hroute question).
  - reflexivity.
Qed.

Lemma asks_from_dec (address : string) (request : Request) :
  {Spec.asks_from address request} + {~ Spec.asks_from address request}.
Proof.
  unfold Spec.asks_from.
  destruct (route request) as [| | |question|] eqn:Hr;
    try (right; intros [[q Hq] _]; discriminate Hq).
  destruct (string_dec (get_remote_address request) address) as [Heq|Hne].
  - left. split; [now exists question|exact Heq].
  - right. intros [_ Heq]. contradiction.
Qed.

(** Requests that are not questions from [address] leave its window, open
    or not, as it was. *)
Lemma serve_keeps_window (cfg : Config) (env : Env) (request : Request)
    (w : World) (address : string) :
  ~ Spec.asks_from address request ->
  Limiter.storage (limiter (serve cfg env request w).2) !! address
  = Limiter.storage (limiter w) !! address /\
  Limiter.expirations (limiter (serve cfg env request w).2) !! address
  = Limiter.expirations (limiter w) !! address.
Proof.
  intros Hother.
  destruct (route request) as [| | |question|] eqn:Hr;
    try (rewrite serve_other_route by (intros q; rewrite Hr; discriminate);
         split; reflexivity).
  destruct (serve_ask_hit cfg env request question w Hr) as (-> & _).
  apply hit_other. intros Heq. apply Hother. split; [now exists question|exact Heq].
Qed.

Lemma run_cons (cfg : Config) (env : Env) (request : Request)
    (rest : list (Env * Request)) (w : World) :
  run cfg ((env, request) :: rest) w
  = ((serve cfg env request w).1 :: (run cfg rest (serve cfg env request w).2).1,
     (run cfg rest (serve cfg env request w).2).2).
Proof.
  cbn [run]. destruct (serve cfg env request w) as [r w1]. cbn [fst snd].
  now destruct (run cfg rest w1).
Qed.

Lemma run_keeps_window (cfg : Config) (reqs : list (Env * Request)) (w : World)
    (address : string) (count closes : Z) :
  Spec.others address reqs ->
  Spec.window address (limiter w) count closes ->
  Spec.window address (limiter (run cfg reqs w).2) count closes.
Proof.
  unfold Spec.others, Spec.window. revert w.
  induction reqs as [|[env request] rest IH]; intros w Hothers Hwin; [exact Hwin|].
  rewrite run_cons. cbn [snd].
  apply Forall_cons in Hothers as [Hother Hrest]. simpl in Hother.
  apply IH; [exact Hrest|].
  destruct (serve_keeps_window cfg env request w address Hother) as [-> ->].
  exact Hwin.
Qed.

(** A new process holds no window. *)
Lemma initial_no_window (address : string) (t : Z) :
  Spec.no_open_window address t (limiter initial).
Proof. unfold Spec.no_open_window. simpl. now rewrite !lookup_empty. Qed.

(** After a history in which [address] asked nothing during the minute
    before [t], no window of [address] is open at [t]. *)
Lemma run_quiet (cfg : Config) (reqs : list (Env * Request)) (w : World)
    (address : string) (t : Z) :
  t < 2 ^ 50 ->
  Spec.quiet address t reqs ->
  Spec.no_open_window address t (limiter w) ->
  Spec.no_open_window address t (limiter (run cfg reqs w).2).
Proof.
  unfold Spec.quiet. intros Ht. revert w.
  induction reqs as [|[env request] rest IH]; intros w Hquiet Hfresh; [exact Hfresh|].
  rewrite run_cons. cbn [snd].
  apply Forall_cons in Hquiet as [Hq Hrest]. simpl in Hq.
  apply IH; [exact Hrest|].
  destruct (asks_from_dec address request) as [Hask|Hother].
  - destruct (Hq Hask) as [Hepoch Hlate].
    destruct Hask as [[question Hr] Haddr].
    destruct (serve_ask_hit cfg env request question w Hr) as (-> & _).
    rewrite Haddr. apply hit_stays_quiet; [|exact Hfresh].
    now apply closes_before.
  - unfold Spec.no_open_window in *.
    destruct (serve_keeps_window cfg env request w address Hother) as [-> ->].
    exact Hfresh.
Qed.

(** The first question of a window is admitted and opens the window. *)
Lemma ask_opens (cfg : Config) (env : Env) (request : Request) (w : World)
    (address : string) :
  Spec.asks_from address request ->
  Spec.no_open_window address (now env) (limiter w) ->
  let s := serve cfg env request w in
  Spec.window address (limiter s.2) 1
    (Double.add (Double.of_ms (now env)) (Double.of_ms 60000)) /\
  ~ Spec.rate_limited s.1.
Proof.
  intros [[question Hr] Haddr] Hfresh s. subst s.
  destruct (serve_ask_hit cfg env request question w Hr) as (-> & _ & Hadm & _).
  rewrite Haddr in *.
  destruct (hit_fresh 3 60000 address (now env) (limiter w) Hfresh) as (Hok & Hc & He).
  split; [split; assumption|]. apply Hadm. rewrite Hok. reflexivity.
Qed.

(** A question inside an open window is counted; it is admitted while the
    count stays within three and turned away, with no effect on the store
    or the event log, once the count exceeds three. *)
Lemma ask_counts (cfg : Config) (env : Env) (request : Request) (w : World)
    (address : string) (count closes : Z) :
  Spec.asks_from address request ->
  Spec.window address (limiter w) count closes ->
  1 <= count -> Double.of_ms (now env) < closes ->
  let s := serve cfg env request w in
  Spec.window address (limiter s.2) (count + 1) closes /\
  (count + 1 <= 3 -> ~ Spec.rate_limited s.1) /\
  (3 < count + 1 -> s.1 = rate_limit_handler /\ trace s.2 = trace w /\ db s.2 = db w).
Proof.
  intros [[question Hr] Haddr] [Hc He] Hpos Hopen s. subst s.
  destruct (serve_ask_hit cfg env request question w Hr) as (-> & _ & Hadm & Hrej).
  rewrite Haddr in *.
  destruct (hit_inside 3 60000 address (now env) count closes (limiter w)
              Hc He Hpos Hopen) as (Hok & Hc' & He').
  split; [split; assumption|]. split.
  - intros Hle. apply Hadm. rewrite Hok. now apply Z.leb_le.
  - intros Hgt. apply Hrej. rewrite Hok. now apply Z.leb_gt.
Qed.

(** C5, as stated, fails: the limiter counts in a fixed window that opens
    with a first question and closes a minute later, not in a rolling one.
    An address that asks once and then, from 59 seconds later, four times
    within a second and a half has all five questions admitted: the fourth
    of the four, 1.5 seconds after the first of them, is answered 200 and
    not 429, it reaches the generation API and it is logged. *)
Lemma C5_counterexample :
  let ask t := (Scenario.env_at t (Some "sk-test"), Scenario.ask "What is time?") in
  let before := [ask 7000000; ask 7059000; ask 7059500; ask 7060100] in
  let w3 := (run Scenario.cfg before initial).2 in
  let s4 := serve Scenario.cfg (Scenario.env_at 7060500 (Some "sk-test"))
                  (Scenario.ask "What is time?") w3 in
  map status_code (run Scenario.cfg before initial).1 = [200; 200; 200; 200] /\
  status_code s4.1 = 200 /\
  s4.1 <> rate_limit_handler /\
  length (Observe.api_calls (trace s4.2)) = 5%nat /\
  length (questions (db s4.2)) = 5%nat.
Proof. vm_compute. repeat split; discriminate. Qed.

(** C5. Take any history in which an address asked nothing during the
    minute before its next question, and four questions from that address,
    the last three less than 60 seconds after the first, with any requests
    that are not questions from that address in between. The rate limiter
    lets the first three through; the fourth is answered 429 with the rate
    limiter's own payload, which is not the provider-overwhelmed payload,
    and it reaches neither the generation API nor the store. *)
Theorem C5_fourth_question_in_a_minute (cfg : Config) (address : string)
    (history mid1 mid2 mid3 : list (Env * Request))
    (e1 e2 e3 e4 : Env) (q1 q2 q3 q4 : Request) :
  Spec.asks_from address q1 -> Spec.asks_from address q2 ->
  Spec.asks_from address q3 -> Spec.asks_from address q4 ->
  Spec.clock (now e1) ->
  Spec.quiet address (now e1) history ->
  Spec.others address mid1 -> Spec.others address mid2 -> Spec.others address mid3 ->
  now e2 < now e1 + 60000 -> now e3 < now e1 + 60000 -> now e4 < now e1 + 60000 ->
  let w0 := (run cfg history initial).2 in
  let s1 := serve cfg e1 q1 w0 in
  let s2 := serve cfg e2 q2 (run cfg mid1 s1.2).2 in
  let s3 := serve cfg e3 q3 (run cfg mid2 s2.2).2 in
  let w3 := (run cfg mid3 s3.2).2 in
  let s4 := serve cfg e4 q4 w3 in
  ~ Spec.rate_limited s1.1 /\ ~ Spec.rate_limited s2.1 /\ ~ Spec.rate_limited s3.1 /\
  s4.1 = mkResponse 429
           (Error "Too many questions. I need time to think. Try again in a minute.") /\
  s4.1 <> mkResponse 429 (Detail "I'm a bit overwhelmed. Try again in a moment.") /\
  trace s4.2 = trace w3 /\
  db s4.2 = db w3.
Proof.
  intros Hq1 Hq2 Hq3 Hq4 Hclock Hquiet Ho1 Ho2 Ho3 Ht2 Ht3 Ht4 w0 s1 s2 s3 w3 s4.
  assert (Spec.no_open_window address (now e1) (limiter w0)) as Hfresh.
  { apply run_quiet; [apply Hclock|exact Hquiet|apply initial_no_window]. }
  destruct (ask_opens cfg e1 q1 w0 address Hq1 Hfresh) as [Hw1 Hadm1].
  fold s1 in Hw1, Hadm1.
  apply (run_keeps_window cfg mid1 _ _ _ _ Ho1) in Hw1.
  destruct (ask_counts cfg e2 q2 _ address 1 _ Hq2 Hw1) as (Hw2 & Hadm2 & _);
    [lia|now apply open_until|].
  fold s2 in Hw2, Hadm2.
  apply (run_keeps_window cfg mid2 _ _ _ _ Ho2) in Hw2.
  destruct (ask_counts cfg e3 q3 _ address 2 _ Hq3 Hw2) as (Hw3 & Hadm3 & _);
    [lia|now apply open_until|].
  fold s3 in Hw3, Hadm3.
  apply (run_keeps_window cfg mid3 _ _ _ _ Ho3) in Hw3.
  fold w3 in Hw3.
  destruct (ask_counts cfg e4 q4 w3 address 3 _ Hq4 Hw3) as (_ & _ & Hrej);
    [lia|now apply open_until|].
  fold s4 in Hrej. destruct Hrej as (Hr4 & Htr & Hdb); [lia|].
  split; [exact Hadm1|]. split; [apply Hadm2; lia|]. split; [apply Hadm3; lia|].
  split; [exact Hr4|]. split; [rewrite Hr4; discriminate|].
  split; assumption.
Qed.

Lemma C5_fourth_question_in_a_minute_witness :
  let e t := Scenario.env_at t (Some "sk-test") in
  let q := Scenario.ask "What is time?" in
  let w0 := (run Scenario.cfg [(e 6939999, q)] initial).2 in
  let s1 := serve Scenario.cfg (e 7000000) q w0 in
  let s2 := serve Scenario.cfg (e 7020000) q (run Scenario.cfg [] s1.2).2 in
  let s3 := serve Scenario.cfg (e 7059999) q (run Scenario.cfg [] s2.2).2 in
  let w3 := (run Scenario.cfg [] s3.2).2 in
  (serve Scenario.cfg (e 7059999) (Scenario.ask "Still there?") w3).1
  = mkResponse 429
      (Error "Too many questions. I need time to think. Try again in a minute.").
Proof.
  intros e q w0 s1 s2 s3 w3.
  assert (Spec.asks_from "10.0.0.7" q) as Hq
    by (split; [now eexists|reflexivity]).
  assert (Spec.asks_from "10.0.0.7" (Scenario.ask "Still there?")) as Hq4
    by (split; [now eexists|reflexivity]).
  assert (Spec.clock (now (e 7000000))) as Hclock
    by (split; [discriminate|reflexivity]).
  assert (Spec.quiet "10.0.0.7" (now (e 7000000)) [(e 6939999, q)]) as Hquiet.
  { constructor; [|constructor]. intros _. split; [discriminate|reflexivity]. }
  assert (Spec.others "10.0.0.7" []) as Hnone by constructor.
  exact (proj1 (proj2 (proj2 (proj2
           (C5_fourth_question_in_a_minute Scenario.cfg "10.0.0.7"
              [(e 6939999, q)] [] [] []
              (e 7000000) (e 7020000) (e 7059999) (e 7059999)
              q q q (Scenario.ask "Still there?")
              Hq Hq Hq Hq4 Hclock Hquiet Hnone Hnone Hnone
              eq_refl eq_refl eq_refl))))).
Defined.

(** A window that has closed is forgotten: the first question asked more
    than 60 s after the question that opened a window opens a new one, and
    the count starts again at one. *)
Example window_restarts :
  let ask t := (Scenario.env_at t None, Scenario.ask "What is time?") in
  map status_code
      (run Scenario.cfg
           [ask 7000000; ask 7059000; ask 7059500;
            ask 7060001; ask 7060500; ask 7061000; ask 7061500] initial).1
  = [503; 503; 503; 503; 503; 503; 429].
Proof. vm_compute. reflexivity. Qed.

(** Exactly a minute after the opening question the rounding of the doubles
    decides. Here the clock reading a minute later is still below the sum
    the window closes at, so the question asked at that reading is counted
    in the old window; a millisecond later the window has closed. *)
Example window_edge :
  let ask t := (Scenario.env_at t None, Scenario.ask "What is time?") in
  Double.of_ms 549755813888007
  < Double.add (Double.of_ms 549755813828007) (Double.of_ms 60000) /\
  map status_code
      (run Scenario.cfg
           [ask 549755813828007; ask 549755813828008; ask 549755813828009;
            ask 549755813888007; ask 549755813888008] initial).1
  = [503; 503; 503; 429; 503].
Proof. vm_compute. split; reflexivity. Qed.

(** ** Stored thoughts *)

Lemma last_char_some (c : ascii) (s : string) :
  exists d, Text.last_char (String c s) = Some d.
Proof.
  revert c. induction s as [|b s IH]; intros c; simpl; [now exists c|].
  apply (IH b).
Qed.

(** A text that trimming leaves non-empty is, once trimmed, free of leading
    and trailing white space. *)
Lemma trimmed_strip (s : string) :
  Text.truthy (Text.strip s) = true -> Spec.trimmed (Text.strip s) = true.
Proof.
  intros Hne. unfold Spec.trimmed.
  pose proof (strip_first s) as Hfirst. pose proof (strip_last s) as Hlast.
  destruct (Text.strip s) as [|c r]; [discriminate|].
  destruct (last_char_some c r) as [d Hd].
  rewrite Hd in *. cbn [Text.first_char] in *.
  now rewrite (Hfirst c eq_refl), (Hlast d eq_refl).
Qed.

(** One request either leaves the table of thoughts as it was, or is a
    POST /api/thoughts that appends one row holding the trimmed, non-empty
    content. *)
Lemma serve_thoughts (cfg : Config) (env : Env) (request : Request) (w : World) :
  thoughts (db (serve cfg env request w).2) = thoughts (db w) \/
  exists content rowid,
    route request = POST_api_thoughts content /\
    Text.truthy (Text.strip content) = true /\
    thoughts (db (serve cfg env request w).2)
    = thoughts (db w)
        ++ [mkThought rowid (Text.strip content) (current_timestamp (now env))].
Proof.
  destruct (route request) as [|limit|content|question|] eqn:Hr.
  - left. unfold serve, dispatch. rewrite Hr.
    unfold home, bind, storage_get_thoughts, ret.
    destruct (storage_up env); [destruct (get_thoughts 20 (db w))|]; easy.
  - left. unfold serve, dispatch. rewrite Hr.
    unfold api_get_thoughts, bind, storage_get_thoughts, ret.
    destruct (storage_up env); [destruct (get_thoughts _ (db w))|]; easy.
  - unfold serve, dispatch. rewrite Hr.
    destruct (verify_admin_cases cfg request w) as [[Hv _]|[Hv _]].
    2:{ left. now rewrite api_add_thought_unauthorized. }
    rewrite api_add_thought_authorized by exact Hv.
    destruct (Text.truthy (Text.strip content)) eqn:Hne; [|now left].
    cbn [negb]. unfold bind, storage_add_thought, ret.
    destruct (storage_up env); [|now left].
    right. exists content, (thoughts_seq (db w) + 1).
    split; [reflexivity|]. split; [exact Hne|reflexivity].
  - left. now destruct (serve_ask_hit cfg env request question w Hr) as (_ & -> & _).
  - left. unfold serve, dispatch. now rewrite Hr.
Qed.

(** C10. Over any run of requests the table of thoughts only grows, and every
    row added holds the trimmed content of a POST /api/thoughts of that run:
    a text that is not empty and neither begins nor ends with white space.
    So if every stored thought is such a text before the run, every stored
    thought is one after it; the empty store of a new installation is such
    a state. *)
Theorem C10_stored_thoughts_are_trimmed (cfg : Config) (reqs : list (Env * Request))
    (w : World) :
  let w' := (run cfg reqs w).2 in
  (exists added,
     thoughts (db w') = thoughts (db w) ++ added /\
     Forall (fun row =>
               Spec.trimmed (thought_content row) = true /\
               exists env request content,
                 In (env, request) reqs /\
                 route request = POST_api_thoughts content /\
                 thought_content row = Text.strip content) added) /\
  (Forall (fun row => Spec.trimmed (thought_content row) = true) (thoughts (db w)) ->
   Forall (fun row => Spec.trimmed (thought_content row) = true) (thoughts (db w'))) /\
  thoughts (db initial) = [].
Proof.
  intros w'. subst w'.
  assert (exists added,
     thoughts (db (run cfg reqs w).2) = thoughts (db w) ++ added /\
     Forall (fun row =>
               Spec.trimmed (thought_content row) = true /\
               exists env request content,
                 In (env, request) reqs /\
                 route request = POST_api_thoughts content /\
                 thought_content row = Text.strip content) added) as Hgrow.
  { revert w. induction reqs as [|[env request] rest IH]; intros w.
    - exists []. split; [now rewrite app_nil_r|constructor].
    - rewrite run_cons. cbn [snd].
      destruct (IH (serve cfg env request w).2) as (added & Heq & Hall).
      assert (Forall (fun row =>
               Spec.trimmed (thought_content row) = true /\
               exists env0 request0 content,
                 In (env0, request0) ((env, request) :: rest) /\
                 route request0 = POST_api_thoughts content /\
                 thought_content row = Text.strip content) added) as Hall'.
      { eapply Forall_impl; [exact Hall|].
        intros row (Htrim & env0 & request0 & content & Hin & Hroute & Hcontent).
        split; [exact Htrim|]. exists env0, request0, content.
        split; [now right|]. now split. }
      destruct (serve_thoughts cfg env request w)
        as [Hsame|(content & rowid & Hroute & Hne & Hadd)].
      + exists added. rewrite Heq, Hsame. now split.
      + exists (mkThought rowid (Text.strip content) (current_timestamp (now env))
                :: added).
        rewrite Heq, Hadd, <- app_assoc. split; [reflexivity|].
        constructor; [|exact Hall'].
        split; [now apply trimmed_strip|].
        exists env, request, content. split; [now left|]. now split. }
  split; [exact Hgrow|]. split; [|reflexivity].
  intros Hbefore. destruct Hgrow as (added & -> & Hall).
  apply Forall_app. split; [exact Hbefore|].
  eapply Forall_impl; [exact Hall|]. now intros row [Htrim _].
Qed.

Lemma C10_stored_thoughts_are_trimmed_witness :
  Forall (fun row => Spec.trimmed (thought_content row) = true)
    (thoughts (db (run Scenario.cfg
                       [(Scenario.env_at 5000100 None, Scenario.post_thought "  a thought ");
                        (Scenario.env_at 5000200 None, Scenario.post_thought "   ")]
                       initial).2)).
Proof.
  apply (C10_stored_thoughts_are_trimmed Scenario.cfg
           [(Scenario.env_at 5000100 None, Scenario.post_thought "  a thought ");
            (Scenario.env_at 5000200 None, Scenario.post_thought "   ")] initial).
  constructor.
Defined.

(** * Further properties of the handlers and the store *)

Import Observe.

(** ** How a question that reaches the provider ends *)

(** With a valid question and a credential, the handler body calls the
    provider once and ends according to what the provider returns and to
    whether the log row can be written. *)
Lemma api_ask_body_calls (env : Env) (request : Request) (question api_key : string)
    (w : World) :
  Spec.valid_question question ->
  anthropic_api_key env = Some api_key -> api_key <> EmptyString ->
  api_ask_body env request question w
  = match provider env (Text.strip question) with
    | Message (TextBlock answer :: _) =>
        if storage_up env
        then (Return (mkResponse 200 (Answer answer)),
              Spec.logged env request api_key question answer w)
        else (Raise (HTTPException 500 "Something went wrong in my thinking."),
              Spec.called api_key question w)
    | ProviderRateLimited =>
        (Raise (HTTPException 429 "I'm a bit overwhelmed. Try again in a moment."),
         Spec.called api_key question w)
    | _ =>
        (Raise (HTTPException 500 "Something went wrong in my thinking."),
         Spec.called api_key question w)
    end.
Proof.
  intros [Hne Hlen] Hkey Hk. unfold api_ask_body.
  apply truthy_true in Hne. rewrite Hne. cbn [negb].
  destruct (Z.ltb_spec 500 (Text.len (Text.strip question))) as [Hlong|_]; [lia|].
  rewrite Hkey. apply truthy_true in Hk. rewrite Hk. cbn [negb].
  unfold try_except, bind, messages_create, emit, storage_log_question, ret, raise.
  unfold Spec.logged, Spec.called. simpl.
  destruct (provider env (Text.strip question)) as [[|[answer|] rest]| |]; simpl;
    try reflexivity.
  destruct (storage_up env); simpl; [|reflexivity].
  now rewrite <- app_assoc.
Qed.

(** X1. When the provider reports its own rate limiting, an admitted valid
    question is answered 429 with the "overwhelmed" detail; the provider was
    called once with the trimmed question and nothing was written to the
    store. *)
Theorem ask_provider_rate_limited (cfg : Config) (env : Env) (question api_key : string)
    (auth host : option string) (w : World) :
  let request := mkRequest (POST_api_ask question) auth host in
  let s := serve cfg env request w in
  (Limiter.hit 3 60000 (get_remote_address request) (now env) (limiter w)).1 = true ->
  Spec.valid_question question ->
  anthropic_api_key env = Some api_key -> api_key <> EmptyString ->
  provider env (Text.strip question) = ProviderRateLimited ->
  s.1 = mkResponse 429 (Detail "I'm a bit overwhelmed. Try again in a moment.") /\
  ~ Spec.rate_limited s.1 /\
  trace s.2 = trace w ++ [MessagesCreate api_key (Text.strip question)] /\
  db s.2 = db w.
Proof.
  intros request s Hadm Hvalid Hkey Hk Hp. subst s request.
  rewrite serve_ask. cbv zeta. rewrite Hadm.
  rewrite (api_ask_body_calls _ _ _ api_key) by assumption.
  rewrite Hp. cbn [fst snd response_of]. repeat split. discriminate.
Qed.

Lemma ask_provider_rate_limited_witness :
  (serve Scenario.cfg
         (mkEnv 7000000 (Some "sk-test") (fun _ => ProviderRateLimited) true)
         (Scenario.ask "What is time?") initial).1
  = mkResponse 429 (Detail "I'm a bit overwhelmed. Try again in a moment.").
Proof.
  apply (ask_provider_rate_limited Scenario.cfg
           (mkEnv 7000000 (Some "sk-test") (fun _ => ProviderRateLimited) true)
           "What is time?" "sk-test" None (Some "10.0.0.7") initial).
  - vm_compute. reflexivity.
  - split; vm_compute; discriminate.
  - reflexivity.
  - discriminate.
  - reflexivity.
Defined.

(** X2. When the provider fails, returns no content block, or returns a first
    block that is not text, an admitted valid question is answered 500 with
    the one generic detail; the provider was called once and nothing was
    written to the store. *)
Theorem ask_provider_failure (cfg : Config) (env : Env) (question api_key : string)
    (auth host : option string) (w : World) :
  let request := mkRequest (POST_api_ask question) auth host in
  let s := serve cfg env request w in
  (Limiter.hit 3 60000 (get_remote_address request) (now env) (limiter w)).1 = true ->
  Spec.valid_question question ->
  anthropic_api_key env = Some api_key -> api_key <> EmptyString ->
  (provider env (Text.strip question) = ProviderFailed \/
   provider env (Text.strip question) = Message [] \/
   exists rest, provider env (Text.strip question) = Message (OtherBlock :: rest)) ->
  s.1 = mkResponse 500 (Detail "Something went wrong in my thinking.") /\
  trace s.2 = trace w ++ [MessagesCreate api_key (Text.strip question)] /\
  db s.2 = db w.
Proof.
  intros request s Hadm Hvalid Hkey Hk Hp. subst s request.
  rewrite serve_ask. cbv zeta. rewrite Hadm.
  rewrite (api_ask_body_calls _ _ _ api_key) by assumption.
  destruct Hp as [->|[->|[rest ->]]]; cbn [fst snd response_of]; repeat split.
Qed.

Lemma ask_provider_failure_witness :
  (serve Scenario.cfg
         (mkEnv 7000000 (Some "sk-test") (fun _ => Message []) true)
         (Scenario.ask "What is time?") initial).1
  = mkResponse 500 (Detail "Something went wrong in my thinking.").
Proof.
  apply (ask_provider_failure Scenario.cfg
           (mkEnv 7000000 (Some "sk-test") (fun _ => Message []) true)
           "What is time?" "sk-test" None (Some "10.0.0.7") initial).
  - vm_compute. reflexivity.
  - split; vm_compute; discriminate.
  - reflexivity.
  - discriminate.
  - right. left. reflexivity.
Defined.

(** X3. The log write sits inside the handler's [try]: when the provider has
    answered but the row cannot be written, the request is answered 500 with
    the generic detail, the answer is not returned, and the store is
    unchanged. *)
Theorem ask_log_failure_hides_answer (cfg : Config) (env : Env)
    (question api_key answer : string) (rest : list ContentBlock)
    (auth host : option string) (w : World) :
  let request := mkRequest (POST_api_ask question) auth host in
  let s := serve cfg env request w in
  (Limiter.hit 3 60000 (get_remote_address request) (now env) (limiter w)).1 = true ->
  Spec.valid_question question ->
  anthropic_api_key env = Some api_key -> api_key <> EmptyString ->
  provider env (Text.strip question) = Message (TextBlock answer :: rest) ->
  storage_up env = false ->
  s.1 = mkResponse 500 (Detail "Something went wrong in my thinking.") /\
  trace s.2 = trace w ++ [MessagesCreate api_key (Text.strip question)] /\
  db s.2 = db w.
Proof.
  intros request s Hadm Hvalid Hkey Hk Hp Hdown. subst s request.
  rewrite serve_ask. cbv zeta. rewrite Hadm.
  rewrite (api_ask_body_calls _ _ _ api_key) by assumption.
  rewrite Hp, Hdown. cbn [fst snd response_of]. repeat split.
Qed.

Lemma ask_log_failure_hides_answer_witness :
  (serve Scenario.cfg
         (mkEnv 7000000 (Some "sk-test") (fun _ => Message [TextBlock "An answer."]) false)
         (Scenario.ask "What is time?") initial).1
  = mkResponse 500 (Detail "Something went wrong in my thinking.").
Proof.
  apply (ask_log_failure_hides_answer Scenario.cfg
           (mkEnv 7000000 (Some "sk-test") (fun _ => Message [TextBlock "An answer."]) false)
           "What is time?" "sk-test" "An answer." [] None (Some "10.0.0.7") initial).
  - vm_compute. reflexivity.
  - split; vm_compute; discriminate.
  - reflexivity.
  - discriminate.
  - reflexivity.
  - reflexivity.
Defined.

(** X4. POST /api/ask always ends in one of seven responses: the rate
    limiter's 429, one of the two 400s, the 503, the provider-overwhelmed
    429, the generic 500, or 200 with an answer. No exception leaves the
    handler unhandled, whatever the provider and the storage do. *)
Theorem ask_responses (cfg : Config) (env : Env) (question : string)
    (auth host : option string) (w : World) :
  let r := (serve cfg env (mkRequest (POST_api_ask question) auth host) w).1 in
  In r [ rate_limit_handler;
         mkResponse 400 (Detail "Empty question");
         mkResponse 400 (Detail "Question too long (max 500 chars)");
         mkResponse 503 (Detail "I'm not connected right now. Check back later.");
         mkResponse 429 (Detail "I'm a bit overwhelmed. Try again in a moment.");
         mkResponse 500 (Detail "Something went wrong in my thinking.") ]
  \/ exists answer, r = mkResponse 200 (Answer answer).
Proof.
  intros r. subst r. rewrite serve_ask. cbv zeta.
  set (request := mkRequest (POST_api_ask question) auth host).
  ask_cases env request question w m o w1 Hcase.
  2:{ left. now left. }
  inversion Hcase; subst; cbn [response_of];
    try (left; simpl; tauto).
  right. now eexists.
Qed.

(** ** The limiter over a whole window *)

Lemma asks_fromb_spec (address : string) (request : Request) :
  asks_fromb address request = true <-> Spec.asks_from address request.
Proof.
  unfold asks_fromb, is_ask, Spec.asks_from.
  destruct (route request) as [| | |question|]; simpl;
    try (split; [discriminate|intros [[q Hq] _]; discriminate Hq]).
  rewrite String.eqb_eq. split; [intros H; split; [now eexists|exact H]|tauto].
Qed.

Lemma asks_fromb_false (address : string) (request : Request) :
  asks_fromb address request = false -> ~ Spec.asks_from address request.
Proof. intros Hb Hask. apply asks_fromb_spec in Hask. congruence. Qed.

Lemma is_limited_spec (r : Response) :
  Spec.rate_limited r -> is_limited r = true.
Proof. unfold Spec.rate_limited. now intros ->. Qed.

(** While the window of an address is open, whatever is served before it
    closes leaves it open with the same end and a count that has not gone
    down. *)
Lemma run_inside_window (cfg : Config) (reqs : list (Env * Request)) (w : World)
    (address : string) (count closes : Z) :
  Spec.window address (limiter w) count closes -> 1 <= count ->
  Forall (fun er => Spec.asks_from address er.2 -> Double.of_ms (now er.1) < closes)
         reqs ->
  exists count',
    count <= count' /\
    Spec.window address (limiter (run cfg reqs w).2) count' closes.
Proof.
  revert w count.
  induction reqs as [|[env request] rest IH]; intros w count Hwin Hpos Hin.
  - exists count. split; [lia|exact Hwin].
  - rewrite run_cons. cbn [snd].
    apply Forall_cons in Hin as [Hnow Hrest]. simpl in Hnow.
    destruct (asks_from_dec address request) as [Hask|Hother].
    + destruct (ask_counts cfg env request w address count closes Hask Hwin Hpos
                  (Hnow Hask)) as (Hwin' & _).
      destruct (IH _ (count + 1) Hwin' ltac:(lia) Hrest) as (count' & Hle & Hw').
      exists count'. split; [lia|exact Hw'].
    + apply (run_keeps_window cfg [(env, request)] w address count closes) in Hwin.
      2:{ constructor; [exact Hother|constructor]. }
      rewrite run_cons in Hwin. cbn [run snd] in Hwin.
      apply (IH _ count Hwin Hpos Hrest).
Qed.

(** Questions asked less than a minute after a window was opened find it
    open. *)
Lemma within_minute_open (address : string) (t : Z) (reqs : list (Env * Request)) :
  Spec.clock t ->
  Spec.within_minute address t reqs ->
  Forall (fun er => Spec.asks_from address er.2 ->
                    Double.of_ms (now er.1)
                    < Double.add (Double.of_ms t) (Double.of_ms 60000)) reqs.
Proof.
  intros Hclock Hin. eapply Forall_impl; [exact Hin|].
  intros er Her Hask. apply open_until; [exact Hclock|now apply Her].
Qed.

(** X5. The window is fixed by its first question: however many questions an
    address sends in the minute after the question that opened its window,
    admitted or turned away, its first question more than a minute after
    the opening one (60.001 seconds or more) is admitted. *)
Theorem question_admitted_once_window_closed (cfg : Config) (address : string)
    (history mid : list (Env * Request)) (e1 e : Env) (q1 q : Request) :
  Spec.asks_from address q1 -> Spec.asks_from address q ->
  Spec.clock (now e1) ->
  Spec.quiet address (now e1) history ->
  Spec.within_minute address (now e1) mid ->
  now e1 + 60000 < now e -> now e < 2 ^ 50 ->
  let w1 := (serve cfg e1 q1 (run cfg history initial).2).2 in
  let w2 := (run cfg mid w1).2 in
  ~ Spec.rate_limited (serve cfg e q w2).1.
Proof.
  intros Hq1 Hq Hclock Hquiet Hmid Hlate Hend w1 w2.
  assert (Spec.no_open_window address (now e1) (limiter (run cfg history initial).2))
    as Hfresh.
  { apply run_quiet; [apply Hclock|exact Hquiet|apply initial_no_window]. }
  destruct (ask_opens cfg e1 q1 _ address Hq1 Hfresh) as [Hw1 _].
  destruct (run_inside_window cfg mid w1 address 1 _ Hw1 ltac:(lia)
              (within_minute_open address (now e1) mid Hclock Hmid))
    as (count' & _ & [_ Hcloses]).
  apply (ask_opens cfg e q w2 address Hq).
  unfold Spec.no_open_window. subst w2. rewrite Hcloses.
  apply closes_before; [apply Hclock|exact Hlate|exact Hend].
Qed.

Lemma question_admitted_once_window_closed_witness :
  let e t := Scenario.env_at t None in
  let q := Scenario.ask "What is time?" in
  let mid := [(e 7010000, q); (e 7020000, q); (e 7030000, q); (e 7059999, q)] in
  let w1 := (serve Scenario.cfg (e 7000000) q (run Scenario.cfg [] initial).2).2 in
  let w2 := (run Scenario.cfg mid w1).2 in
  ~ Spec.rate_limited (serve Scenario.cfg (e 7060001) q w2).1.
Proof.
  intros e q mid w1 w2.
  assert (Spec.asks_from "10.0.0.7" q) as Hq
    by (split; [now eexists|reflexivity]).
  assert (Spec.clock (now (e 7000000))) as Hclock
    by (split; [discriminate|reflexivity]).
  assert (Spec.within_minute "10.0.0.7" (now (e 7000000)) mid) as Hmid
    by (repeat constructor).
  assert (Spec.quiet "10.0.0.7" (now (e 7000000)) []) as Hquiet by constructor.
  exact (question_admitted_once_window_closed Scenario.cfg "10.0.0.7" [] mid
           (e 7000000) (e 7060001) q q Hq Hq Hclock Hquiet Hmid
           eq_refl eq_refl).
Defined.

(** Within an open window that has counted [count] questions, at most
    [3 - count] further questions of the address are admitted. *)
Lemma admitted_inside_window (cfg : Config) (reqs : list (Env * Request)) (w : World)
    (address : string) (count closes : Z) :
  Spec.window address (limiter w) count closes -> 1 <= count ->
  Forall (fun er => Spec.asks_from address er.2 -> Double.of_ms (now er.1) < closes)
         reqs ->
  Z.of_nat (admitted address reqs (run cfg reqs w).1) <= Z.max 0 (3 - count).
Proof.
  revert w count.
  induction reqs as [|[env request] rest IH]; intros w count Hwin Hpos Hin.
  - simpl. lia.
  - rewrite run_cons. cbn [fst admitted].
    apply Forall_cons in Hin as [Hnow Hrest]. simpl in Hnow.
    destruct (asks_fromb address request) eqn:Hb.
    + apply asks_fromb_spec in Hb.
      destruct (ask_counts cfg env request w address count closes Hb Hwin Hpos
                  (Hnow Hb)) as (Hwin' & _ & Hrej).
      specialize (IH _ (count + 1) Hwin' ltac:(lia) Hrest).
      destruct (Z.ltb_spec 3 (count + 1)) as [Hfull|Hroom].
      * destruct (Hrej Hfull) as (Hr & _). rewrite (is_limited_spec _ Hr).
        simpl. lia.
      * destruct (is_limited (serve cfg env request w).1); simpl; lia.
    + apply asks_fromb_false in Hb.
      apply (run_keeps_window cfg [(env, request)] w address count closes) in Hwin.
      2:{ constructor; [exact Hb|constructor]. }
      rewrite run_cons in Hwin. cbn [run snd] in Hwin.
      specialize (IH _ count Hwin Hpos Hrest). simpl. lia.
Qed.

(** X6. From the first question an address asks after a quiet minute and
    for the minute that follows it (up to 59.999 seconds later), at most
    three of its questions are admitted, however many it sends and whatever
    other requests are served in between. *)
Theorem at_most_three_admitted_per_window (cfg : Config) (address : string)
    (history rest : list (Env * Request)) (e1 : Env) (q1 : Request) :
  Spec.asks_from address q1 ->
  Spec.clock (now e1) ->
  Spec.quiet address (now e1) history ->
  Spec.within_minute address (now e1) rest ->
  let w0 := (run cfg history initial).2 in
  (admitted address ((e1, q1) :: rest) (run cfg ((e1, q1) :: rest) w0).1 <= 3)%nat.
Proof.
  intros Hq1 Hclock Hquiet Hrest w0.
  assert (Spec.no_open_window address (now e1) (limiter w0)) as Hfresh.
  { apply run_quiet; [apply Hclock|exact Hquiet|apply initial_no_window]. }
  destruct (ask_opens cfg e1 q1 w0 address Hq1 Hfresh) as [Hw1 _].
  pose proof (admitted_inside_window cfg rest _ address 1 _ Hw1 ltac:(lia)
                (within_minute_open address (now e1) rest Hclock Hrest)) as Hcap.
  rewrite run_cons. cbn [fst admitted].
  destruct (asks_fromb address q1 && negb (is_limited (serve cfg e1 q1 w0).1)); lia.
Qed.

Lemma at_most_three_admitted_per_window_witness :
  let e t := Scenario.env_at t None in
  let q := Scenario.ask "What is time?" in
  let rest := [(e 7010000, q); (e 7020000, q); (e 7030000, q); (e 7059999, q)] in
  let reqs := (e 7000000, q) :: rest in
  let w0 := (run Scenario.cfg [(e 6939999, q)] initial).2 in
  (admitted "10.0.0.7" reqs (run Scenario.cfg reqs w0).1 <= 3)%nat.
Proof.
  intros e q rest reqs w0.
  assert (Spec.asks_from "10.0.0.7" q) as Hq
    by (split; [now eexists|reflexivity]).
  assert (Spec.clock (now (e 7000000))) as Hclock
    by (split; [discriminate|reflexivity]).
  assert (Spec.quiet "10.0.0.7" (now (e 7000000)) [(e 6939999, q)]) as Hquiet.
  { constructor; [|constructor]. intros _. split; [discriminate|reflexivity]. }
  assert (Spec.within_minute "10.0.0.7" (now (e 7000000)) rest) as Hrest
    by (repeat constructor).
  exact (at_most_three_admitted_per_window Scenario.cfg "10.0.0.7"
           [(e 6939999, q)] rest (e 7000000) q Hq Hclock Hquiet Hrest).
Defined.

(** The verdict on a hit depends only on the entry of its key. *)
Lemma hit_verdict_ext (amount expiry : Z) (key : string) (t : Z)
    (m m' : Limiter.MemoryStorage) :
  Limiter.storage m !! key = Limiter.storage m' !! key ->
  Limiter.expirations m !! key = Limiter.expirations m' !! key ->
  (Limiter.hit amount expiry key t m).1 = (Limiter.hit amount expiry key t m').1.
Proof.
  unfold Limiter.hit, Limiter.incr, Limiter.expire. intros Hs He.
  rewrite He.
  destruct (default 0 (Limiter.expirations m' !! key) <=? Double.of_ms t);
    cbn [fst snd Limiter.storage].
  - now rewrite !lookup_delete_eq.
  - now rewrite Hs.
Qed.

(** X7. Limits are per address and per route: serving any requests that are
    not questions from an address, be they questions from other addresses
    or calls to other routes, never changes whether that address's next
    question is admitted. *)
Theorem others_do_not_change_the_verdict (cfg : Config) (address : string)
    (reqs : list (Env * Request)) (w : World) (t : Z) :
  Spec.others address reqs ->
  (Limiter.hit 3 60000 address t (limiter (run cfg reqs w).2)).1
  = (Limiter.hit 3 60000 address t (limiter w)).1.
Proof.
  revert w. induction reqs as [|[env request] rest IH]; intros w Hothers;
    [reflexivity|].
  apply Forall_cons in Hothers as [Hother Hrest]. simpl in Hother.
  rewrite run_cons. cbn [snd]. rewrite (IH _ Hrest).
  destruct (serve_keeps_window cfg env request w address Hother) as [Hs He].
  now apply hit_verdict_ext.
Qed.

Lemma others_do_not_change_the_verdict_witness :
  (Limiter.hit 3 60000 "10.0.0.7" 7000900
     (limiter (run Scenario.cfg
                 [(Scenario.env_at 7000100 None,
                   mkRequest (POST_api_ask "Who asks?") None (Some "10.0.0.8"));
                  (Scenario.env_at 7000200 None, Scenario.list_thoughts 5)]
                 initial).2)).1
  = (Limiter.hit 3 60000 "10.0.0.7" 7000900 (limiter initial)).1.
Proof.
  apply (others_do_not_change_the_verdict Scenario.cfg "10.0.0.7").
  repeat constructor; simpl; intros [[q Hq] Ha]; discriminate.
Defined.

(** ** What one request does to the store *)

(** POST /api/thoughts ends in one of four ways. *)
Lemma serve_add_thought_cases (cfg : Config) (env : Env) (request : Request)
    (content : string) (w : World) :
  route request = POST_api_thoughts content ->
  let s := serve cfg env request w in
  (~ Spec.valid_credential cfg request /\
   s = (mkResponse 401 (Detail "Unauthorized"), w)) \/
  (Spec.valid_credential cfg request /\ Text.strip content = EmptyString /\
   s = (mkResponse 400 (Detail "Empty thought"), w)) \/
  (Spec.valid_credential cfg request /\ Text.strip content <> EmptyString /\
   storage_up env = false /\
   s = (mkResponse 500 InternalServerError, w)) \/
  (Spec.valid_credential cfg request /\ Text.strip content <> EmptyString /\
   storage_up env = true /\
   s = (mkResponse 200 (Created (thoughts_seq (db w) + 1)),
        mkWorld (add_thought (Text.strip content) (now env) (db w)).2 (limiter w)
          (trace w ++ [InsertThought
             (mkThought (thoughts_seq (db w) + 1) (Text.strip content)
                        (current_timestamp (now env)))]))).
Proof.
  intros Hr s. subst s. unfold serve, dispatch. rewrite Hr.
  destruct (verify_admin_cases cfg request w) as [[Hv _]|[Hv _]].
  2:{ left. split; [exact Hv|]. now rewrite api_add_thought_unauthorized. }
  right. rewrite api_add_thought_authorized by exact Hv.
  destruct (Text.truthy (Text.strip content)) eqn:Hne; cbn [negb].
  2:{ left. apply truthy_false in Hne.
      split; [exact Hv|]. split; [exact Hne|reflexivity]. }
  right. apply truthy_true in Hne.
  unfold bind, storage_add_thought, ret.
  destruct (storage_up env); [right|left];
    (split; [exact Hv|]; split; [exact Hne|]; split; reflexivity).
Qed.

(** What one request does to the store: nothing, or one row appended to
    [thoughts] together with a [Created] response, or one row appended to
    [questions] together with an [Answer] response. *)
Lemma serve_db_cases (cfg : Config) (env : Env) (request : Request) (w : World) :
  let s := serve cfg env request w in
  (db s.2 = db w /\ is_created s.1 = false /\ is_answer s.1 = false) \/
  (exists content,
     route request = POST_api_thoughts content /\
     Text.strip content <> EmptyString /\
     s.1 = mkResponse 200 (Created (thoughts_seq (db w) + 1)) /\
     db s.2 = (add_thought (Text.strip content) (now env) (db w)).2) \/
  (exists question answer,
     route request = POST_api_ask question /\
     Spec.valid_question question /\
     s.1 = mkResponse 200 (Answer answer) /\
     db s.2 = log_question (Text.strip question) answer
                (ip_hash_of (get_remote_address request)) (now env) (db w)).
Proof.
  intros s. subst s.
  destruct (route request) as [|limit|content|question|] eqn:Hr.
  - left. unfold serve, dispatch. rewrite Hr.
    unfold home, bind, storage_get_thoughts, ret.
    destruct (storage_up env); [destruct (get_thoughts 20 (db w))|]; easy.
  - left. unfold serve, dispatch. rewrite Hr.
    unfold api_get_thoughts, bind, storage_get_thoughts, ret.
    destruct (storage_up env); [destruct (get_thoughts _ (db w))|]; easy.
  - destruct (serve_add_thought_cases cfg env request content w Hr)
      as [(_ & ->)|[(_ & _ & ->)|[(_ & _ & _ & ->)|(_ & Hne & _ & ->)]]];
      try (left; repeat split; reflexivity).
    right. left. exists content.
    split; [reflexivity|]. split; [exact Hne|]. split; reflexivity.
  - rewrite (serve_ask_route _ _ _ _ _ Hr). cbv zeta.
    ask_cases env request question w m o w1 Hcase.
    2:{ left. repeat split. }
    inversion Hcase; subst; cbn [fst snd response_of];
      try (left; repeat split; reflexivity).
    right. right. exists question, answer.
    split; [reflexivity|]. split; [assumption|]. split; reflexivity.
  - left. unfold serve, dispatch. rewrite Hr. repeat split.
Qed.

(** ** Row identifiers *)

Lemma sequential_snoc (ids : list Z) (last : Z) :
  sequential ids last -> sequential (ids ++ [last + 1]) (last + 1).
Proof.
  unfold sequential. intros [Hids ->].
  rewrite length_app. simpl. rewrite Nat.add_1_r. split; [|lia].
  rewrite seq_S, map_app. simpl. rewrite <- Hids. f_equal. f_equal. lia.
Qed.

Lemma sequential_NoDup (ids : list Z) (last : Z) : sequential ids last -> NoDup ids.
Proof.
  intros [-> _]. generalize (length ids) as n. intros n. generalize 1%nat as a.
  induction n as [|n IH]; intros a; simpl; constructor; [|apply IH].
  rewrite list_elem_of_In, in_map_iff. intros (k & Hk & Hin%in_seq). lia.
Qed.

(** X8. Row identifiers are handed out in order and never reused: over any
    run of requests on a store whose tables are numbered 1, 2, ... (the empty
    store of a new installation is one), both tables stay numbered 1, 2, ...
    in insertion order, so no two thoughts and no two logged questions share
    an identifier. *)
Theorem rowids_sequential (cfg : Config) (reqs : list (Env * Request)) (w : World) :
  sequential (map thought_id (thoughts (db w))) (thoughts_seq (db w)) ->
  sequential (map question_id (questions (db w))) (questions_seq (db w)) ->
  let w' := (run cfg reqs w).2 in
  sequential (map thought_id (thoughts (db w'))) (thoughts_seq (db w')) /\
  sequential (map question_id (questions (db w'))) (questions_seq (db w')) /\
  NoDup (map thought_id (thoughts (db w'))) /\
  NoDup (map question_id (questions (db w'))).
Proof.
  intros Ht Hq w'. subst w'.
  assert (sequential (map thought_id (thoughts (db (run cfg reqs w).2)))
                     (thoughts_seq (db (run cfg reqs w).2)) /\
          sequential (map question_id (questions (db (run cfg reqs w).2)))
                     (questions_seq (db (run cfg reqs w).2))) as [Ht' Hq'].
  { revert w Ht Hq. induction reqs as [|[env request] rest IH]; intros w Ht Hq.
    - now split.
    - rewrite run_cons. cbn [snd]. apply IH.
      + destruct (serve_db_cases cfg env request w)
          as [(-> & _)|[(content & _ & _ & _ & ->)|(question & answer & _ & _ & _ & ->)]];
          [exact Ht| |exact Ht].
        simpl. rewrite map_app. simpl. now apply sequential_snoc.
      + destruct (serve_db_cases cfg env request w)
          as [(-> & _)|[(content & _ & _ & _ & ->)|(question & answer & _ & _ & _ & ->)]];
          [exact Hq|exact Hq|].
        simpl. rewrite map_app. simpl. now apply sequential_snoc. }
  split; [exact Ht'|]. split; [exact Hq'|].
  split; eapply sequential_NoDup; eassumption.
Qed.

Lemma rowids_sequential_witness :
  NoDup (map thought_id
           (thoughts (db (run Scenario.cfg Scenario.many_thoughts initial).2))).
Proof.
  apply (rowids_sequential Scenario.cfg Scenario.many_thoughts initial);
    split; reflexivity.
Defined.

(** ** Rows and responses *)

Lemma count_of_cons (p : Response -> bool) (r : Response) (resps : list Response) :
  count_of p (r :: resps) = ((if p r then 1 else 0) + count_of p resps)%nat.
Proof. unfold count_of. simpl. now destruct (p r). Qed.

(** X9. Rows and successes go one to one: over any run of requests, the
    number of thoughts grows by the number of [Created] responses and the
    number of logged questions by the number of [Answer] responses; nothing
    else adds a row and no row is removed. *)
Theorem rows_match_successes (cfg : Config) (reqs : list (Env * Request)) (w : World) :
  let out := run cfg reqs w in
  length (thoughts (db out.2))
  = (length (thoughts (db w)) + count_of is_created out.1)%nat /\
  length (questions (db out.2))
  = (length (questions (db w)) + count_of is_answer out.1)%nat.
Proof.
  intros out. subst out. revert w.
  induction reqs as [|[env request] rest IH]; intros w.
  - simpl. unfold count_of. simpl. lia.
  - rewrite run_cons. cbn [fst snd].
    destruct (IH (serve cfg env request w).2) as [IHt IHq].
    rewrite IHt, IHq, !count_of_cons.
    destruct (serve_db_cases cfg env request w)
      as [(-> & -> & ->)|[(content & _ & _ & -> & ->)
                         |(question & answer & _ & _ & -> & ->)]].
    + lia.
    + simpl. rewrite length_app. simpl. lia.
    + simpl. rewrite length_app. simpl. lia.
Qed.

(** ** The question log *)

(** X10. The question log is append-only and well formed: over any run of
    requests, the rows already there stay as they are, in place, and every
    row added holds a trimmed question of 1 to 500 characters, an answer,
    and a hash of sixteen hexadecimal digits. *)
Theorem question_log_well_formed (cfg : Config) (reqs : list (Env * Request))
    (w : World) :
  let w' := (run cfg reqs w).2 in
  exists added,
    questions (db w') = questions (db w) ++ added /\
    Forall well_formed_question added.
Proof.
  intros w'. subst w'. revert w.
  induction reqs as [|[env request] rest IH]; intros w.
  - exists []. split; [now rewrite app_nil_r|constructor].
  - rewrite run_cons. cbn [snd].
    destruct (IH (serve cfg env request w).2) as (added & -> & Hall).
    destruct (serve_db_cases cfg env request w)
      as [(-> & _)|[(content & _ & _ & _ & ->)
                   |(question & answer & _ & [Hne Hlen] & _ & ->)]].
    + now exists added.
    + now exists added.
    + exists (new_question (Text.strip question) answer
                (ip_hash_of (get_remote_address request)) (now env) (db w) :: added).
      simpl. rewrite <- app_assoc. split; [reflexivity|].
      constructor; [|exact Hall].
      unfold well_formed_question. simpl.
      split; [apply trimmed_strip; now apply truthy_true|].
      split; [exact Hlen|]. split; [now eexists|].
      eexists. split; [reflexivity|apply ip_hash_hex16].
Qed.

(** ** Listing against the table *)

Lemma sql_limit_all {A} (limit : Z) (rows : list A) :
  - 2 ^ 63 <= limit <= 2 ^ 63 - 1 ->
  limit < 0 \/ Z.of_nat (length rows) <= limit -> sql_limit limit rows = Some rows.
Proof.
  intros Hfits%fits_int64_spec. unfold sql_limit. rewrite Hfits. intros [Hneg|Hbig].
  - destruct (Z.ltb_spec limit 0); [reflexivity|lia].
  - destruct (Z.ltb_spec limit 0); [reflexivity|]. f_equal. apply take_ge. lia.
Qed.

(** X11. With no limit (a negative one) or a limit no smaller than the
    number of stored thoughts, and in either case one that fits a signed
    integer of 64 bits, [get_thoughts] returns every stored thought exactly
    once, newest first; with a limit that does not fit it returns no list
    (Python raises [OverflowError]). *)
Theorem get_thoughts_returns_every_row (limit : Z) (store : Db) :
  (- 2 ^ 63 <= limit <= 2 ^ 63 - 1 ->
   limit < 0 \/ Z.of_nat (length (thoughts store)) <= limit ->
   exists rows,
     get_thoughts limit store = Some rows /\
     rows ≡ₚ thoughts store /\
     Spec.newest_first rows) /\
  (limit < - 2 ^ 63 \/ 2 ^ 63 - 1 < limit -> get_thoughts limit store = None).
Proof.
  split.
  - intros Hfits Hall. exists (order_by_created_at_desc (thoughts store)).
    split; [|split; [apply order_perm|apply order_sorted]].
    unfold get_thoughts. apply sql_limit_all; [exact Hfits|].
    destruct Hall as [Hneg|Hbig]; [now left|right].
    now rewrite (Permutation_length (order_perm (thoughts store))).
  - intros Hout. now apply sql_limit_overflow.
Qed.

Lemma get_thoughts_returns_every_row_witness :
  exists rows,
    get_thoughts 101 (db (run Scenario.cfg Scenario.many_thoughts initial).2)
    = Some rows /\
    rows ≡ₚ thoughts (db (run Scenario.cfg Scenario.many_thoughts initial).2) /\
    Spec.newest_first rows.
Proof.
  apply (proj1 (get_thoughts_returns_every_row 101
                  (db (run Scenario.cfg Scenario.many_thoughts initial).2))).
  - lia.
  - right. vm_compute. discriminate.
Defined.

(** X12. Insert then look up: when POST /api/thoughts answers [Created id],
    [id] is the next rowid, and a listing with no limit, or with a limit no
    smaller than the number of stored thoughts, contains the row with that
    [id], the trimmed content and the current second; the limit is one that
    fits a signed integer of 64 bits. *)
Theorem created_thought_is_listed (cfg : Config) (env : Env) (request : Request)
    (content : string) (w : World) (rowid : Z) :
  route request = POST_api_thoughts content ->
  (serve cfg env request w).1 = mkResponse 200 (Created rowid) ->
  let w' := (serve cfg env request w).2 in
  rowid = thoughts_seq (db w) + 1 /\
  forall limit,
    - 2 ^ 63 <= limit <= 2 ^ 63 - 1 ->
    limit < 0 \/ Z.of_nat (length (thoughts (db w'))) <= limit ->
    exists rows,
      get_thoughts limit (db w') = Some rows /\
      In (mkThought rowid (Text.strip content) (current_timestamp (now env))) rows.
Proof.
  intros Hr Hresp w'. subst w'.
  destruct (serve_add_thought_cases cfg env request content w Hr)
    as [(_ & Hs)|[(_ & _ & Hs)|[(_ & _ & _ & Hs)|(_ & _ & _ & Hs)]]];
    rewrite Hs in *; cbn [fst snd] in *; try discriminate Hresp.
  injection Hresp as <-. split; [reflexivity|].
  intros limit Hfits Hall. eexists. split.
  - unfold get_thoughts. apply sql_limit_all; [exact Hfits|].
    destruct Hall as [Hneg|Hbig]; [now left|right].
    now rewrite (Permutation_length (order_perm _)).
  - apply (Permutation_in _ (Permutation_sym (order_perm _))).
    simpl. apply in_or_app. right. now left.
Qed.

Lemma created_thought_is_listed_witness :
  let env := Scenario.env_at 5000100 None in
  exists rows,
    get_thoughts (-1)
      (db (serve Scenario.cfg env (Scenario.post_thought "  a thought ") initial).2)
    = Some rows /\
    In (mkThought 1 "a thought" 5000) rows.
Proof.
  intros env.
  destruct (created_thought_is_listed Scenario.cfg env
              (Scenario.post_thought "  a thought ") "  a thought " initial 1)
    as [_ Hlisted]; [reflexivity|vm_compute; reflexivity|].
  apply (Hlisted (-1)); [lia|left; lia].
Defined.

(** X13. GET /api/thoughts changes nothing. With the storage usable and a
    [limit] of at least -2^63 it answers 200 with the rows of
    [get_thoughts (min limit 100)], newest first: [min limit 100] rows at
    most when [limit] is not negative, and every stored thought when
    [limit] is negative. A [limit] below -2^63 cannot be bound to the
    statement: the exception is not handled and the answer is the server's
    500. *)
Theorem get_thoughts_endpoint (cfg : Config) (env : Env) (limit : Z)
    (auth host : option string) (w : World) :
  storage_up env = true ->
  let s := serve cfg env (mkRequest (GET_api_thoughts limit) auth host) w in
  s.2 = w /\
  (- 2 ^ 63 <= limit ->
   exists rows,
     get_thoughts (Z.min limit 100) (db w) = Some rows /\
     s.1 = mkResponse 200 (ThoughtList rows) /\
     Spec.newest_first rows /\
     (0 <= limit ->
      length rows = Nat.min (Z.to_nat (Z.min limit 100)) (length (thoughts (db w)))) /\
     (limit < 0 -> rows ≡ₚ thoughts (db w))) /\
  (limit < - 2 ^ 63 -> s.1 = mkResponse 500 InternalServerError).
Proof.
  intros Hup s. subst s. unfold serve, dispatch. cbn [route].
  unfold api_get_thoughts, bind, storage_get_thoughts, ret. rewrite Hup.
  unfold get_thoughts. split; [|split].
  - destruct (sql_limit _ _); reflexivity.
  - intros Hfits.
    destruct (sql_limit_split (Z.min limit 100)
                (order_by_created_at_desc (thoughts (db w))) ltac:(lia))
      as (rows & rest & Hrows & Hsplit & Hlen).
    exists rows. rewrite Hrows. cbn [fst snd response_of].
    split; [reflexivity|]. split; [reflexivity|]. split; [|split].
    + pose proof (order_sorted (thoughts (db w))) as Hsorted.
      rewrite Hsplit in Hsorted. eapply StronglySorted_app_1_l, Hsorted.
    + intros Hpos. rewrite Hlen by lia.
      now rewrite (Permutation_length (order_perm (thoughts (db w)))).
    + intros Hneg.
      rewrite sql_limit_all in Hrows by lia.
      injection Hrows as <-. apply order_perm.
  - intros Hout. rewrite sql_limit_overflow by (left; lia). reflexivity.
Qed.

Lemma get_thoughts_endpoint_witness :
  (serve Scenario.cfg (Scenario.env_at 200000 None) (Scenario.list_thoughts 500)
         (run Scenario.cfg Scenario.many_thoughts initial).2).2
  = (run Scenario.cfg Scenario.many_thoughts initial).2.
Proof.
  apply (get_thoughts_endpoint Scenario.cfg (Scenario.env_at 200000 None) 500
           None (Some "10.0.0.7") (run Scenario.cfg Scenario.many_thoughts initial).2).
  reflexivity.
Defined.

(** ** The order of a listing *)

Lemma insert_desc_oldest (t : Thought) (l : list Thought) :
  Forall (fun u => thought_created_at t < thought_created_at u) l ->
  insert_desc t l = l ++ [t].
Proof.
  induction 1 as [|u l Hu _ IH]; [reflexivity|]. simpl.
  destruct (Z.ltb_spec (thought_created_at t) (thought_created_at u)); [|lia].
  now rewrite IH.
Qed.

(** X15. When every thought was created in a later second than the one
    before it, a listing with a limit that fits a signed integer of 64 bits
    is the table in reverse insertion order: all of it for a negative
    limit, its first [limit] rows otherwise. *)
Theorem one_per_second_lists_in_reverse (limit : Z) (store : Db) :
  one_per_second (thoughts store) ->
  - 2 ^ 63 <= limit <= 2 ^ 63 - 1 ->
  get_thoughts limit store
  = Some (if limit <? 0 then rev (thoughts store)
          else take (Z.to_nat limit) (rev (thoughts store))).
Proof.
  unfold one_per_second, get_thoughts, sql_limit.
  intros Hsorted Hfits%fits_int64_spec. rewrite Hfits.
  assert (order_by_created_at_desc (thoughts store) = rev (thoughts store)) as ->;
    [|reflexivity].
  induction Hsorted as [|t l _ IH Hall]; [reflexivity|].
  simpl. rewrite IH. apply insert_desc_oldest.
  apply Forall_forall. intros u Hu%list_elem_of_In%in_rev%list_elem_of_In.
  revert u Hu. now apply Forall_forall.
Qed.

Lemma one_per_second_lists_in_reverse_witness :
  get_thoughts 2 (mkDb [mkThought 1 "a" 10; mkThought 2 "b" 11; mkThought 3 "c" 15] 3 [] 0)
  = Some [mkThought 3 "c" 15; mkThought 2 "b" 11].
Proof.
  apply (one_per_second_lists_in_reverse 2
           (mkDb [mkThought 1 "a" 10; mkThought 2 "b" 11; mkThought 3 "c" 15] 3 [] 0)).
  - unfold one_per_second. repeat constructor; simpl; lia.
  - lia.
Defined.

(** ** The page, the GET routes and a successful POST *)

(** X16. The home page changes nothing. With the storage usable it is
    answered 200 with the rows of [get_thoughts 20], at most twenty and
    newest first, and the clock reading; with the storage unusable the
    exception is not handled and the answer is the server's 500. *)
Theorem home_page (cfg : Config) (env : Env) (auth host : option string) (w : World) :
  let s := serve cfg env (mkRequest GET_home auth host) w in
  s.2 = w /\
  (storage_up env = true ->
   exists rows,
     get_thoughts 20 (db w) = Some rows /\
     s.1 = mkResponse 200 (Page rows (now env)) /\
     (length rows <= 20)%nat /\
     Spec.newest_first rows) /\
  (storage_up env = false -> s.1 = mkResponse 500 InternalServerError).
Proof.
  intros s. subst s. unfold serve, dispatch. cbn [route].
  unfold home, bind, storage_get_thoughts, ret, get_thoughts.
  destruct (sql_limit_split 20 (order_by_created_at_desc (thoughts (db w)))
              ltac:(lia))
    as (rows & rest & Hrows & Hsplit & Hlen).
  rewrite Hrows.
  destruct (storage_up env); cbn [fst snd response_of].
  - split; [reflexivity|]. split; [|discriminate]. intros _.
    exists rows. split; [reflexivity|]. split; [reflexivity|].
    split; [rewrite Hlen by lia; lia|].
    pose proof (order_sorted (thoughts (db w))) as Hsorted.
    rewrite Hsplit in Hsorted. eapply StronglySorted_app_1_l, Hsorted.
  - split; [reflexivity|]. split; [discriminate|reflexivity].
Qed.

Lemma home_page_witness :
  (serve Scenario.cfg (mkEnv 5000 None (fun _ => ProviderFailed) false)
         (mkRequest GET_home None None) initial).1
  = mkResponse 500 InternalServerError.
Proof.
  apply (home_page Scenario.cfg (mkEnv 5000 None (fun _ => ProviderFailed) false)
           None None initial).
  reflexivity.
Defined.

Lemma serve_get_world (cfg : Config) (env : Env) (request : Request) (w : World) :
  is_get request = true -> (serve cfg env request w).2 = w.
Proof.
  unfold is_get, serve, dispatch.
  destruct (route request) as [|limit|content|question|]; try discriminate; intros _.
  - unfold home, bind, storage_get_thoughts, ret.
    destruct (storage_up env); [destruct (get_thoughts 20 (db w))|]; easy.
  - unfold api_get_thoughts, bind, storage_get_thoughts, ret.
    destruct (storage_up env); [destruct (get_thoughts _ (db w))|]; easy.
  - reflexivity.
Qed.

(** X17. The GET routes are safe: the home page, GET /api/thoughts and
    /health leave the store, the limiter's counters and the event log
    exactly as they were, whatever the parameters, the credentials and the
    state of the storage; and /health answers 200 with the clock reading
    even when the storage cannot be used. *)
Theorem get_requests_change_nothing (cfg : Config) (env : Env) (request : Request)
    (w : World) :
  is_get request = true ->
  (serve cfg env request w).2 = w /\
  (route request = GET_health ->
   (serve cfg env request w).1 = mkResponse 200 (Alive (now env))).
Proof.
  intros Hget. split; [now apply serve_get_world|].
  intros Hr. unfold serve, dispatch. now rewrite Hr.
Qed.

Lemma get_requests_change_nothing_witness :
  (serve Scenario.cfg (mkEnv 5000 None (fun _ => ProviderFailed) false)
         (mkRequest GET_health None None)
         (run Scenario.cfg Scenario.many_thoughts initial).2).1
  = mkResponse 200 (Alive 5000).
Proof.
  apply (get_requests_change_nothing Scenario.cfg
           (mkEnv 5000 None (fun _ => ProviderFailed) false)
           (mkRequest GET_health None None)
           (run Scenario.cfg Scenario.many_thoughts initial).2);
    reflexivity.
Defined.

(** X18. A POST /api/thoughts with a valid credential, a content that is not
    blank and a usable storage is answered 200 with the next rowid; it
    appends exactly one row, with that rowid, the trimmed content and the
    current second, and touches neither the question log nor the limiter.
    With the storage unusable the same request is answered with the
    server's 500 and changes nothing. *)
Theorem add_thought_outcome (cfg : Config) (env : Env) (request : Request)
    (content : string) (w : World) :
  route request = POST_api_thoughts content ->
  Spec.valid_credential cfg request ->
  Text.strip content <> EmptyString ->
  let s := serve cfg env request w in
  (storage_up env = true ->
   s.1 = mkResponse 200 (Created (thoughts_seq (db w) + 1)) /\
   thoughts (db s.2)
   = thoughts (db w) ++ [mkThought (thoughts_seq (db w) + 1) (Text.strip content)
                                   (current_timestamp (now env))] /\
   thoughts_seq (db s.2) = thoughts_seq (db w) + 1 /\
   questions (db s.2) = questions (db w) /\
   limiter s.2 = limiter w) /\
  (storage_up env = false ->
   s = (mkResponse 500 InternalServerError, w)).
Proof.
  intros Hr Hv Hne s. subst s.
  destruct (serve_add_thought_cases cfg env request content w Hr)
    as [(Hnv & _)|[(_ & He & _)|[(_ & _ & Hup & ->)|(_ & _ & Hup & ->)]]];
    try contradiction; rewrite Hup; cbn [fst snd].
  - split; [discriminate|reflexivity].
  - split; [|discriminate]. intros _. repeat split.
Qed.

Lemma add_thought_outcome_witness :
  (serve Scenario.cfg (Scenario.env_at 5000100 None)
         (Scenario.post_thought "  a thought ") initial).1
  = mkResponse 200 (Created (thoughts_seq (db initial) + 1)).
Proof.
  apply (add_thought_outcome Scenario.cfg (Scenario.env_at 5000100 None)
           (Scenario.post_thought "  a thought ") "  a thought " initial).
  - reflexivity.
  - split; [discriminate|reflexivity].
  - vm_compute. discriminate.
  - reflexivity.
Defined.

(** ** What trimming keeps *)

Lemma lstrip_decompose (s : string) :
  exists before,
    s = before +:+ Text.lstrip s /\ Text.all_chars Text.isspace before = true.
Proof.
  induction s as [|c s (before & Hs & Hws)]; [now exists EmptyString|].
  simpl. destruct (Text.isspace c) eqn:Hc.
  - exists (String c before).
    split; [change (String c s = String c (before +:+ Text.lstrip s));
            f_equal; exact Hs|simpl; now rewrite Hc, Hws].
  - now exists EmptyString.
Qed.

Lemma rstrip_decompose (s : string) :
  exists after,
    s = Text.rstrip s +:+ after /\ Text.all_chars Text.isspace after = true.
Proof.
  induction s as [|c s (after & Hs & Hws)]; [now exists EmptyString|].
  simpl. destruct (Text.rstrip s) as [|b r] eqn:Hr.
  - change (s = after) in Hs. subst after. destruct (Text.isspace c) eqn:Hc.
    + exists (String c s). split; [reflexivity|simpl; now rewrite Hc, Hws].
    + exists s. now split.
  - exists after. split; [|exact Hws].
    change (String c s = String c (String b r +:+ after)). f_equal. exact Hs.
Qed.

(** X19. A stored thought is the submitted content with white space removed
    at its two ends and nothing else: when POST /api/thoughts answers
    [Created], the submitted content is white space, then the stored content,
    then white space, and the stored content is the last row of the
    table. *)
Theorem stored_content_loses_only_outer_white_space (cfg : Config) (env : Env)
    (request : Request) (content : string) (w : World) (rowid : Z) :
  route request = POST_api_thoughts content ->
  (serve cfg env request w).1 = mkResponse 200 (Created rowid) ->
  exists before stored after,
    content = before +:+ stored +:+ after /\
    Text.all_chars Text.isspace before = true /\
    Text.all_chars Text.isspace after = true /\
    Spec.trimmed stored = true /\
    last (thoughts (db (serve cfg env request w).2))
    = Some (mkThought rowid stored (current_timestamp (now env))).
Proof.
  intros Hr Hresp.
  destruct (lstrip_decompose content) as (before & Hl & Hbefore).
  destruct (rstrip_decompose (Text.lstrip content)) as (after & Hrs & Hafter).
  exists before, (Text.strip content), after.
  split; [unfold Text.strip; now rewrite <- Hrs|].
  split; [exact Hbefore|]. split; [exact Hafter|].
  destruct (serve_add_thought_cases cfg env request content w Hr)
    as [(_ & Hs)|[(_ & _ & Hs)|[(_ & _ & _ & Hs)|(_ & Hne & _ & Hs)]]];
    rewrite Hs in *; cbn [fst snd] in *; try discriminate Hresp.
  injection Hresp as <-.
  split; [apply trimmed_strip; now apply truthy_true|].
  simpl. apply last_snoc.
Qed.

Lemma stored_content_loses_only_outer_white_space_witness :
  exists before stored after,
    "  a thought " = before +:+ stored +:+ after /\
    Text.all_chars Text.isspace before = true /\
    Text.all_chars Text.isspace after = true /\
    Spec.trimmed stored = true /\
    last (thoughts (db (serve Scenario.cfg (Scenario.env_at 5000100 None)
                          (Scenario.post_thought "  a thought ") initial).2))
    = Some (mkThought 1 stored (current_timestamp (now (Scenario.env_at 5000100 None)))).
Proof.
  apply (stored_content_loses_only_outer_white_space Scenario.cfg
           (Scenario.env_at 5000100 None) (Scenario.post_thought "  a thought ")
           "  a thought " initial 1).
  - reflexivity.
  - vm_compute. reflexivity.
Defined.

(** ** Restarting the process *)

(** X20. The limiter's counters live in memory only: after a restart on the
    same storage file the store is what it was, and the next question of any
    address is admitted, whatever that address had asked before. *)
Theorem restart_keeps_data_and_forgets_limits (cfg : Config) (env : Env)
    (request : Request) (address : string) (w : World) :
  Spec.asks_from address request ->
  db (restart w) = db w /\
  ~ Spec.rate_limited (serve cfg env request (restart w)).1.
Proof.
  intros Hask. split; [reflexivity|].
  apply (ask_opens cfg env request (restart w) address Hask).
  unfold Spec.no_open_window, restart. cbn [limiter Limiter.empty Limiter.expirations
                                            Limiter.storage].
  now rewrite !lookup_empty.
Qed.

Lemma restart_keeps_data_and_forgets_limits_witness :
  let w := (run Scenario.cfg Scenario.three_questions initial).2 in
  ~ Spec.rate_limited
      (serve Scenario.cfg (Scenario.env_at 7000900 None)
             (Scenario.ask "What is time?") (restart w)).1.
Proof.
  intros w.
  apply (restart_keeps_data_and_forgets_limits Scenario.cfg
           (Scenario.env_at 7000900 None) (Scenario.ask "What is time?")
           "10.0.0.7" w).
  split; [now eexists|reflexivity].
Defined.

(** ** What the provider is sent *)

Lemma api_calls_app (l1 l2 : list Event) :
  api_calls (l1 ++ l2) = api_calls l1 ++ api_calls l2.
Proof.
  induction l1 as [|[k q|row|row] l1 IH]; simpl; [reflexivity| |exact IH|exact IH].
  now rewrite IH.
Qed.

(** The calls one request adds: none, or one well-formed call made by a
    question. *)
Lemma serve_api_calls (cfg : Config) (env : Env) (request : Request) (w : World) :
  exists calls,
    api_calls (trace (serve cfg env request w).2) = api_calls (trace w) ++ calls /\
    Forall well_formed_call calls /\
    (length calls <= if is_ask request then 1 else 0)%nat.
Proof.
  unfold is_ask.
  destruct (route request) as [|limit|content|question|] eqn:Hr.
  - exists []. rewrite serve_get_world by (unfold is_get; now rewrite Hr).
    rewrite app_nil_r. repeat split; [constructor|simpl; lia].
  - exists []. rewrite serve_get_world by (unfold is_get; now rewrite Hr).
    rewrite app_nil_r. repeat split; [constructor|simpl; lia].
  - exists [].
    destruct (serve_add_thought_cases cfg env request content w Hr)
      as [(_ & ->)|[(_ & _ & ->)|[(_ & _ & _ & ->)|(_ & _ & _ & ->)]]];
      cbn [snd trace]; rewrite ?api_calls_app, ?app_nil_r;
      repeat split; try constructor; simpl; lia.
  - rewrite (serve_ask_route _ _ _ _ _ Hr). cbv zeta.
    ask_cases env request question w m o w1 Hcase.
    2:{ exists []. rewrite app_nil_r. repeat split; [constructor|simpl; lia]. }
    assert (forall k, Spec.valid_question question -> k <> EmptyString ->
                      well_formed_call (k, Text.strip question)) as Hwf.
    { intros k [Hne Hlen] Hk. split; [exact Hk|].
      split; [apply trimmed_strip; now apply truthy_true|exact Hlen]. }
    inversion Hcase; subst; cbn [snd trace Spec.called Spec.logged];
      try (exists []; rewrite app_nil_r; repeat split; [constructor|simpl; lia]);
      rewrite api_calls_app; simpl;
      (eexists; split; [reflexivity|]; split;
       [constructor; [now apply Hwf|constructor]|simpl; lia]).
  - exists []. rewrite serve_get_world by (unfold is_get; now rewrite Hr).
    rewrite app_nil_r. repeat split; [constructor|simpl; lia].
Qed.

(** X21. Over any run of requests the generation API is called at most once
    for each question received and never for another route, and every call
    carries a credential that is not empty and a trimmed question of 1 to
    500 characters: blank and oversized questions never reach the
    provider. *)
Theorem provider_calls_are_well_formed (cfg : Config) (reqs : list (Env * Request))
    (w : World) :
  exists calls,
    api_calls (trace (run cfg reqs w).2) = api_calls (trace w) ++ calls /\
    Forall well_formed_call calls /\
    (length calls <= length (List.filter (fun er => is_ask (snd er)) reqs))%nat.
Proof.
  revert w. induction reqs as [|[env request] rest IH]; intros w.
  - exists []. rewrite app_nil_r. repeat split; [constructor|simpl; lia].
  - rewrite run_cons. cbn [snd].
    destruct (IH (serve cfg env request w).2) as (later & -> & Hlater & Hn).
    destruct (serve_api_calls cfg env request w) as (first & -> & Hfirst & Hone).
    exists (first ++ later). rewrite <- app_assoc. split; [reflexivity|].
    split; [now apply Forall_app|].
    rewrite length_app. simpl. destruct (is_ask request); simpl in *; lia.
Qed.

(** ** The admin route is outside the limiter *)

(** X22. POST /api/thoughts always ends in one of four responses: 401, the
    400 for a blank content, the server's 500, or 200 with the next rowid.
    It is never answered by the rate limiter, and it leaves the limiter's
    counters and the question log as they were: failed admin attempts are
    not counted anywhere. *)
Theorem add_thought_responses (cfg : Config) (env : Env) (content : string)
    (auth host : option string) (w : World) :
  let s := serve cfg env (mkRequest (POST_api_thoughts content) auth host) w in
  In s.1 [ mkResponse 401 (Detail "Unauthorized");
           mkResponse 400 (Detail "Empty thought");
           mkResponse 500 InternalServerError;
           mkResponse 200 (Created (thoughts_seq (db w) + 1)) ] /\
  ~ Spec.rate_limited s.1 /\
  limiter s.2 = limiter w /\
  questions (db s.2) = questions (db w).
Proof.
  intros s. subst s. unfold Spec.rate_limited, rate_limit_handler.
  destruct (serve_add_thought_cases cfg env
              (mkRequest (POST_api_thoughts content) auth host) content w eq_refl)
    as [(_ & ->)|[(_ & _ & ->)|[(_ & _ & _ & ->)|(_ & _ & _ & ->)]]];
    cbn [fst snd]; (split; [simpl; tauto|]); (split; [discriminate|]);
    split; reflexivity.
Qed.
